(** * buddhy-backend: book ingestion and query scripts

    Shallow embedding of [process_books.py] and [query_database.py].
    Python [str] values are sequences of Unicode code points, Python [int]
    values are unbounded integers, exceptions are explicit error results,
    and printing is recorded in explicit output streams. *)

From Stdlib Require Import List ZArith NArith QArith Bool String Ascii Lia.
From Stdlib Require Import DecimalString DecimalZ FinFun.
Import ListNotations.

Set Implicit Arguments.

(** ** Python strings *)

Module PyStr.

Definition char := N.
Definition str := list char.

(** A literal of the source, written as a Rocq string. *)
Definition lit (s : string) : str := map N_of_ascii (list_ascii_of_string s).

Definition char_eqb (a b : char) : bool := N.eqb a b.

Fixpoint str_eqb (a b : str) : bool :=
  match a, b with
  | [], [] => true
  | x :: a', y :: b' => char_eqb x y && str_eqb a' b'
  | _, _ => false
  end.

Definition in_range (lo hi c : N) : bool := (N.leb lo c && N.leb c hi)%bool.

(** [str.isspace] on one code point: the table of [_PyUnicode_IsWhitespace].
    The same predicate drives [str.split()], [str.strip()] and the regular
    expression class [\s] on [str] patterns. *)
Definition isspace (c : char) : bool :=
  (in_range 9 13 c || in_range 28 32 c || N.eqb c 133 || N.eqb c 160
   || N.eqb c 5760 || in_range 8192 8202 c || N.eqb c 8232 || N.eqb c 8233
   || N.eqb c 8239 || N.eqb c 8287 || N.eqb c 12288)%bool.

Definition space : char := 32%N.

(** [text.split()]: the maximal runs of non-whitespace characters.
    [cur] holds the characters of the word being read, last one first. *)
Fixpoint split_from (cur : str) (s : str) : list str :=
  match s with
  | [] => match cur with [] => [] | _ => [rev cur] end
  | c :: r =>
      if isspace c
      then match cur with
           | [] => split_from [] r
           | _ => rev cur :: split_from [] r
           end
      else split_from (c :: cur) r
  end.

Definition split (s : str) : list str := split_from [] s.

(** [sep.join(ws)] *)
Fixpoint join (sep : str) (ws : list str) : str :=
  match ws with
  | [] => []
  | w :: r => match r with
              | [] => w
              | _ => w ++ sep ++ join sep r
              end
  end.

Fixpoint lstrip (s : str) : str :=
  match s with
  | [] => []
  | c :: r => if isspace c then lstrip r else s
  end.

Definition rstrip (s : str) : str := rev (lstrip (rev s)).

(** [s.strip()] *)
Definition strip (s : str) : str := rstrip (lstrip s).

(** [len(s)] *)
Definition len {A} (l : list A) : Z := Z.of_nat (List.length l).

(** Index normalisation of a slice bound: a negative bound counts from the
    end, and every bound is clamped to [0 .. n]. *)
Definition slice_bound (n k : Z) : Z :=
  if (k <? 0)%Z then Z.max 0 (k + n) else Z.min k n.

(** [l[i:j]] *)
Definition slice {A} (l : list A) (i j : Z) : list A :=
  let a := slice_bound (len l) i in
  let b := slice_bound (len l) j in
  firstn (Z.to_nat (b - a)) (skipn (Z.to_nat a) l).

(** [s.startswith(p)] *)
Fixpoint startswith (p s : str) : bool :=
  match p, s with
  | [], _ => true
  | x :: p', y :: s' => char_eqb x y && startswith p' s'
  | _ :: _, [] => false
  end.

(** [s.endswith(p)] *)
Definition endswith (p s : str) : bool := startswith (rev p) (rev s).

(** [s.replace(old, new)] for a non-empty [old]: the occurrences of [old]
    are found left to right and do not overlap.  [skip] counts the
    characters of the occurrence just replaced that are still to be
    passed over. *)
Fixpoint replace_from (old new : str) (skip : nat) (s : str) : str :=
  match s with
  | [] => []
  | c :: r =>
      match skip with
      | S k => replace_from old new k r
      | O => if startswith old s
             then new ++ replace_from old new (Nat.pred (List.length old)) r
             else c :: replace_from old new 0 r
      end
  end.

Definition replace (old new s : str) : str := replace_from old new 0 s.

(** [str(n)] for a non-negative integer, as in an f-string field. *)
Definition of_nat (n : nat) : str := lit (NilZero.string_of_uint (Nat.to_uint n)).

End PyStr.

Import PyStr.

(** ** Exceptions, results and the [range] builtin *)

Module Py.

Inductive exn : Type :=
| ValueError (msg : str)
| TypeError (msg : str)
| IndexError (msg : str)
| LibraryError (msg : str)
| SystemExit (code : Z).

(** [str(e)], as formatted by [{e}] in an f-string. *)
Definition exn_str (e : exn) : str :=
  match e with
  | ValueError m | TypeError m | IndexError m | LibraryError m => m
  | SystemExit c => lit (NilZero.string_of_int (Z.to_int c))
  end.

(** [isinstance(e, Exception)]: what [except Exception] catches. *)
Definition is_Exception (e : exn) : bool :=
  match e with
  | SystemExit _ => false
  | _ => true
  end.

Inductive result (A : Type) : Type :=
| Ok (a : A)
| Raise (e : exn).

Arguments Ok {A} a.
Arguments Raise {A} e.

Definition rbind {A B} (r : result A) (k : A -> result B) : result B :=
  match r with
  | Ok a => k a
  | Raise e => Raise e
  end.

(** The loop of [range] with a positive step. [fuel] bounds the number of
    elements; [range] gives enough of it. *)
Fixpoint range_up (fuel : nat) (i stop step : Z) : list Z :=
  match fuel with
  | O => []
  | S f => if (i <? stop)%Z then i :: range_up f (i + step) stop step else []
  end.

Fixpoint range_down (fuel : nat) (i stop step : Z) : list Z :=
  match fuel with
  | O => []
  | S f => if (stop <? i)%Z then i :: range_down f (i + step) stop step else []
  end.

(** [range(start, stop, step)], as the list of its elements. *)
Definition range (start stop step : Z) : result (list Z) :=
  if (step =? 0)%Z then Raise (ValueError (lit "range() arg 3 must not be zero"))
  else if (0 <? step)%Z
       then Ok (range_up (Z.to_nat (stop - start)) start stop step)
       else Ok (range_down (Z.to_nat (start - stop)) start stop step).

(** [l[i]] for a list *)
Definition getitem {A} (l : list A) (i : Z) : result A :=
  let k := if (i <? 0)%Z then (i + len l)%Z else i in
  if (k <? 0)%Z then Raise (IndexError (lit "list index out of range"))
  else match nth_error l (Z.to_nat k) with
       | Some a => Ok a
       | None => Raise (IndexError (lit "list index out of range"))
       end.

(** [enumerate(l)] *)
Fixpoint enumerate_from {A} (i : Z) (l : list A) : list (Z * A) :=
  match l with
  | [] => []
  | a :: r => (i, a) :: enumerate_from (i + 1) r
  end.

Definition enumerate {A} (l : list A) : list (Z * A) := enumerate_from 0 l.

(** [str(z)] for an integer *)
Definition of_int (z : Z) : str := lit (NilZero.string_of_int (Z.to_int z)).

(** A script step: it reads and updates the process state [S] and either
    yields a value or raises. *)
Definition M (S A : Type) : Type := S -> S * result A.

Definition ret {S A} (a : A) : M S A := fun s => (s, Ok a).

Definition raise {S A} (e : exn) : M S A := fun s => (s, Raise e).

Definition bind {S A B} (m : M S A) (k : A -> M S B) : M S B :=
  fun s => match m s with
           | (s', Ok a) => k a s'
           | (s', Raise e) => (s', Raise e)
           end.

Definition lift {S A} (r : result A) : M S A := fun s => (s, r).

(** [for x in l: acc = body(acc, x)] *)
Fixpoint for_each {S A B} (body : B -> A -> M S B) (l : list A) (acc : B) : M S B :=
  match l with
  | [] => ret acc
  | x :: r => bind (body acc x) (fun acc' => for_each body r acc')
  end.

End Py.

Import Py.

Declare Scope py_scope.
Delimit Scope py_scope with py.
Notation "x <- m ;; k" := (bind m (fun x => k))
  (at level 61, m at next level, right associativity) : py_scope.
Notation "m ;;; k" := (bind m (fun _ => k))
  (at level 61, right associativity) : py_scope.

(** ** process_books.py *)

Module ProcessBooks.

Local Open Scope py_scope.

(** *** Regular-expression character classes *)

Definition ascii_alnum (c : char) : bool :=
  (in_range 48 57 c || in_range 65 90 c || in_range 97 122 c)%bool.

(** [\w] on a [str] pattern: alphanumeric or underscore.  [uni_alnum] is
    [str.isalnum] beyond ASCII, a table of the Unicode database. *)
Definition is_word (uni_alnum : char -> bool) (c : char) : bool :=
  if N.ltb c 128 then (ascii_alnum c || N.eqb c 95)%bool else uni_alnum c.

(** The punctuation kept by the second substitution. *)
Definition kept_punctuation : str := lit ".,!?;:-()".

Definition is_kept_punctuation (c : char) : bool :=
  existsb (char_eqb c) kept_punctuation.

(** The complement of the class [[^\w\s\.\,\!\?\;\:\-\(\)]]. *)
Definition allowed (uni_alnum : char -> bool) (c : char) : bool :=
  (is_word uni_alnum c || isspace c || is_kept_punctuation c)%bool.

(** [re.sub(r'\s+', ' ', text)]: each maximal run of whitespace becomes one
    space.  [in_run] tells that the previous character was whitespace. *)
Fixpoint sub_whitespace_runs (in_run : bool) (s : str) : str :=
  match s with
  | [] => []
  | c :: r =>
      if isspace c
      then if in_run
           then sub_whitespace_runs true r
           else space :: sub_whitespace_runs true r
      else c :: sub_whitespace_runs false r
  end.

(** [re.sub(r'[^\w\s\.\,\!\?\;\:\-\(\)]', '', text)] *)
Definition sub_special_characters (uni_alnum : char -> bool) (s : str) : str :=
  filter (allowed uni_alnum) s.

Definition clean_text (uni_alnum : char -> bool) (text : str) : str :=
  let text := sub_whitespace_runs false text in
  let text := sub_special_characters uni_alnum text in
  strip text.

(** *** Chunking *)

Definition default_chunk_size : Z := 500.
Definition default_overlap : Z := 50.

(** The body of the loop of [chunk_text] at index [i]. *)
Definition chunk_step (words : list str) (chunk_size : Z) (chunks : list str) (i : Z)
  : list str :=
  let chunk := join (lit " ") (slice words i (i + chunk_size)) in
  if (50 <? len (strip chunk))%Z then chunks ++ [chunk] else chunks.

Definition chunk_text (text : str) (chunk_size overlap : Z) : result (list str) :=
  let words := split text in
  rbind (range 0 (len words) (chunk_size - overlap))
        (fun idxs => Ok (fold_left (chunk_step words chunk_size) idxs [])).

(** The word windows [words[i:i + chunk_size]] that the loop of [chunk_text]
    joins, one per iteration, before the length test. *)
Definition raw_windows (text : str) (chunk_size overlap : Z) : result (list (list str)) :=
  let words := split text in
  rbind (range 0 (len words) (chunk_size - overlap))
        (fun idxs => Ok (map (fun i => slice words i (i + chunk_size)) idxs)).

(** *** Ingestion *)

Record metadata : Type := {
  book : str;
  chunk_id : Z;
  source : str
}.

Record summary : Type := {
  total_books : Z;
  total_chunks : Z;
  books_processed : list str
}.

(** The three lists filled document by document. *)
Record pending : Type := {
  all_chunks : list str;
  all_metadatas : list metadata;
  all_ids : list str
}.

Definition no_pending : pending :=
  {| all_chunks := []; all_metadatas := []; all_ids := [] |}.

(** The collaborators of the script: the Unicode table of [\w], the
    directory listing, the PDF reader (opening a file yields its pages or
    fails; extracting the text of a page yields text or fails), the
    embedding model and the collection. *)
Record World (embedding collection : Type) : Type := {
  uni_alnum : char -> bool;
  listdir : str -> result (list str);
  read_pdf : str -> result (list (result str));
  encode : list str -> result (list embedding);
  collection_add :
    collection -> list str -> list embedding -> list metadata -> list str ->
    result collection
}.

(** The process state: the lines printed on standard output, the
    collection, and the content of [processing_summary.json] when the run
    has written it. *)
Record state (collection : Type) : Type := {
  stdout : list str;
  db : collection;
  summary_file : option summary
}.

Definition initial {collection : Type} (c : collection) : state collection :=
  {| stdout := []; db := c; summary_file := None |}.

(** [os.path.join(a, b)] on POSIX *)
Definition path_join (a b : str) : str :=
  if startswith (lit "/") b then b
  else match a with
       | [] => b
       | _ => if endswith (lit "/") a then a ++ b else a ++ lit "/" ++ b
       end.

Definition newline : str := [10%N].

(** The loop over the pages: the text read so far, and the exception that
    stopped the loop if there is one. *)
Fixpoint read_pages (text : str) (pages : list (result str)) : str * option exn :=
  match pages with
  | [] => (text, None)
  | Ok t :: r => read_pages (text ++ (t ++ newline)) r
  | Raise e :: _ => (text, Some e)
  end.

Section Ingestion.

Variables embedding collection : Type.
Variable w : World embedding collection.
Variable books_folder_path : str.

Definition print (line : str) : M (state collection) unit :=
  fun s => ({| stdout := stdout s ++ [line];
               db := db s;
               summary_file := summary_file s |}, Ok tt).

Definition set_db (c : collection) : M (state collection) unit :=
  fun s => ({| stdout := stdout s; db := c; summary_file := summary_file s |}, Ok tt).

Definition get_db : M (state collection) collection :=
  fun s => (s, Ok (db s)).

(** [json.dump(summary, f, indent=2)] into the freshly opened summary file;
    the write itself is taken to succeed. *)
Definition write_summary (v : summary) : M (state collection) unit :=
  fun s => ({| stdout := stdout s; db := db s; summary_file := Some v |}, Ok tt).

(** The [except Exception] clause of [extract_text_from_pdf], entered with
    the text read so far. *)
Definition extract_failed (pdf_path text : str) (e : exn) : M (state collection) str :=
  if is_Exception e
  then print (lit "Error reading " ++ pdf_path ++ lit ": " ++ exn_str e) ;;; ret text
  else raise e.

(** The [try] block of [extract_text_from_pdf]: the text read, and the
    exception that ended the block if there is one. *)
Definition read_document (pdf_path : str) : str * option exn :=
  match read_pdf w pdf_path with
  | Raise e => ([], Some e)
  | Ok pages => read_pages [] pages
  end.

Definition extract_text_from_pdf (pdf_path : str) : M (state collection) str :=
  match read_document pdf_path with
  | (text, None) => ret text
  | (text, Some e) => extract_failed pdf_path text e
  end.

Definition book_name_of (pdf_file : str) : str := replace (lit ".pdf") [] pdf_file.

(** The body of [for i, chunk in enumerate(chunks)] *)
Definition add_chunk (pdf_file : str) (acc : pending) (ic : Z * str) : pending :=
  let (i, chunk) := ic in
  let book_name := book_name_of pdf_file in
  {| all_chunks := all_chunks acc ++ [chunk];
     all_metadatas := all_metadatas acc
                      ++ [{| book := book_name; chunk_id := i; source := pdf_file |}];
     all_ids := all_ids acc ++ [book_name ++ lit "_chunk_" ++ of_int i] |}.

(** The body of [for pdf_file in pdf_files] *)
Definition process_book (acc : pending) (pdf_file : str) : M (state collection) pending :=
  print (lit "Processing: " ++ pdf_file) ;;;
  let pdf_path := path_join books_folder_path pdf_file in
  raw_text <- extract_text_from_pdf pdf_path ;;
  match strip raw_text with
  | [] => print (lit "No text extracted from " ++ pdf_file) ;;; ret acc
  | _ :: _ =>
      let clean_text := clean_text (uni_alnum w) raw_text in
      chunks <- lift (chunk_text clean_text default_chunk_size default_overlap) ;;
      let acc' := fold_left (add_chunk pdf_file) (enumerate chunks) acc in
      print (lit "Processed " ++ of_int (len chunks) ++ lit " chunks from " ++ pdf_file) ;;;
      ret acc'
  end.

Definition batch_size : Z := 100.

(** The body of [for i in range(0, len(all_chunks), batch_size)] *)
Definition store_batch (acc : pending) (_ : unit) (i : Z) : M (state collection) unit :=
  let batch_chunks := slice (all_chunks acc) i (i + batch_size) in
  let batch_metadatas := slice (all_metadatas acc) i (i + batch_size) in
  let batch_ids := slice (all_ids acc) i (i + batch_size) in
  embeddings <- lift (encode w batch_chunks) ;;
  c <- get_db ;;
  c' <- lift (collection_add w c batch_chunks embeddings batch_metadatas batch_ids) ;;
  set_db c' ;;;
  print (lit "Processed batch " ++ of_int (i / batch_size + 1) ++ lit "/"
         ++ of_int ((len (all_chunks acc) + batch_size - 1) / batch_size)).

Definition process_all_books : M (state collection) unit :=
  print (lit "Starting to process books...") ;;;
  names <- lift (listdir w books_folder_path) ;;
  let pdf_files := filter (endswith (lit ".pdf")) names in
  match pdf_files with
  | [] => print (lit "No PDF files found in the Books folder!")
  | _ :: _ =>
      acc <- for_each process_book pdf_files no_pending ;;
      print (lit "Generating embeddings and storing in database...") ;;;
      idxs <- lift (range 0 (len (all_chunks acc)) batch_size) ;;
      for_each (store_batch acc) idxs tt ;;;
      print (lit "Successfully processed " ++ of_int (len (all_chunks acc))
             ++ lit " chunks from " ++ of_int (len pdf_files) ++ lit " books!") ;;;
      write_summary {| total_books := len pdf_files;
                       total_chunks := len (all_chunks acc);
                       books_processed := map book_name_of pdf_files |} ;;;
      print (lit "Processing complete! Summary saved to processing_summary.json")
  end.

End Ingestion.

(** *** The entry point *)

(** What [main] asks of the outside: the line that [input] reads (or the
    exception it raises at the end of the input), [os.path.exists], and the
    construction of the processor, which loads the model and opens the
    collection. *)
Record MainWorld : Type := {
  input : result str;
  path_exists : str -> bool;
  book_rag_processor : str -> result unit
}.

Definition default_books_folder : str := lit "../BookRAG/Books".

Section Main.

Variables embedding collection : Type.
Variable w : World embedding collection.
Variable mw : MainWorld.

(** The prompt of [input] is recorded among the printed lines. *)
Definition main : M (state collection) unit :=
  print
    (lit "Enter the full path to your Books folder (or press Enter for default): ") ;;;
  line <- lift (input mw) ;;
  let books_folder := strip line in
  let books_folder :=
    match books_folder with
    | [] => default_books_folder
    | _ :: _ => books_folder
    end in
  if negb (path_exists mw books_folder)
  then print (lit "Error: Books folder not found at " ++ books_folder) ;;;
       print (lit "Please make sure the path is correct.")
  else lift (book_rag_processor mw books_folder) ;;;
       process_all_books w books_folder.

End Main.

End ProcessBooks.

(** ** query_database.py *)

Module QueryDatabase.

Local Open Scope py_scope.

(** *** The [int] builtin on a string argument *)

(** Whitespace around the digits: ASCII characters are tested by the C
    locale table, the others by [str.isspace]. *)
Definition int_space (c : char) : bool :=
  if N.ltb c 127 then (in_range 9 13 c || N.eqb c 32)%bool else isspace c.

(** The value of a decimal digit; [uni_decimal] is the Unicode table of
    decimal digits beyond ASCII. *)
Definition digit_value (uni_decimal : char -> option Z) (c : char) : option Z :=
  if N.ltb c 127
  then if in_range 48 57 c then Some (Z.of_N c - 48)%Z else None
  else uni_decimal c.

(** Digits with single underscores between them. [after_digit] tells that
    the previous character was a digit; [n] counts the digits read. *)
Fixpoint int_digits (uni_decimal : char -> option Z) (acc : Z) (n : nat)
    (after_digit : bool) (s : str) : option (Z * nat) :=
  match s with
  | [] => if after_digit then Some (acc, n) else None
  | c :: r =>
      if N.eqb c 95
      then if after_digit then int_digits uni_decimal acc n false r else None
      else match digit_value uni_decimal c with
           | Some d => int_digits uni_decimal (10 * acc + d)%Z (S n) true r
           | None => None
           end
  end.

Fixpoint drop_int_space (s : str) : str :=
  match s with
  | [] => []
  | c :: r => if int_space c then drop_int_space r else s
  end.

(** [int(s)] in base 10.  [max_str_digits] is
    [sys.get_int_max_str_digits()], where 0 means no limit. *)
Definition int (uni_decimal : char -> option Z) (max_str_digits : Z) (s : str)
  : result Z :=
  let invalid := ValueError (lit "invalid literal for int() with base 10") in
  let body := rev (drop_int_space (rev (drop_int_space s))) in
  let (negative, digits) :=
    match body with
    | c :: r => if N.eqb c 45 then (true, r)
                else if N.eqb c 43 then (false, r)
                else (false, body)
    | [] => (false, body)
    end in
  match int_digits uni_decimal 0 0 false digits with
  | None => Raise invalid
  | Some (v, n) =>
      if ((0 <? max_str_digits) && (max_str_digits <? Z.of_nat n))%Z%bool
      then Raise (ValueError (lit "Exceeds the limit for integer string conversion"))
      else Ok (if negative then (- v)%Z else v)
  end.

(** *** The query *)

Section Query.

(** [float] values and JSON metadata objects are not inspected by the
    script; [one_minus d] is [1 - d]. *)
Variables float metadata embedding collection : Type.
Variable one_minus : float -> float.

(** The dictionary returned by [collection.query] for the three fields in
    [include]; a field may be [None]. *)
Record query_result : Type := {
  documents : option (list (list str));
  metadatas : option (list (list metadata));
  distances : option (list (list float))
}.

(** One formatted result *)
Record hit : Type := {
  content : str;
  hit_metadata : metadata;
  score : float
}.

(** The collaborators: opening the client, looking the collection up,
    loading the model, encoding the query and querying the collection. *)
Record World : Type := {
  uni_decimal : char -> option Z;
  max_str_digits : Z;
  persistent_client : result unit;
  get_collection : result collection;
  sentence_transformer : result unit;
  encode : str -> result embedding;
  query : collection -> embedding -> Z -> result query_result
}.

(** What the process writes on standard output: a printed line, or the
    JSON document of [json.dumps(results, indent=2)]. *)
Inductive output : Type :=
| Line (s : str)
| Json (results : list hit).

Record state : Type := {
  stdout : list output;
  stderr : list str
}.

Definition initial : state := {| stdout := []; stderr := [] |}.

Definition print (o : output) : M state unit :=
  fun s => ({| stdout := stdout s ++ [o]; stderr := stderr s |}, Ok tt).

Definition print_err (line : str) : M state unit :=
  fun s => ({| stdout := stdout s; stderr := stderr s ++ [line] |}, Ok tt).

(** [try: body except Exception as e: handler(e)] *)
Definition try_except {A} (body : M state A) (handler : exn -> M state A) : M state A :=
  fun s => match body s with
           | (s', Ok a) => (s', Ok a)
           | (s', Raise e) => if is_Exception e then handler e s' else (s', Raise e)
           end.

(** [x[0]] where [x] may be [None] *)
Definition first_of {A} (x : option (list A)) : result A :=
  match x with
  | None => Raise (TypeError (lit "'NoneType' object is not subscriptable"))
  | Some l => getitem l 0
  end.

(** The body of [for i in range(len(results['documents'][0]))] *)
Definition format_result (results : query_result) (formatted_results : list hit) (i : Z)
  : result (list hit) :=
  rbind (rbind (first_of (documents results)) (fun d => getitem d i)) (fun c =>
  rbind (rbind (first_of (metadatas results)) (fun m => getitem m i)) (fun m =>
  rbind (rbind (first_of (distances results)) (fun d => getitem d i)) (fun d =>
  Ok (formatted_results ++ [{| content := c; hit_metadata := m; score := one_minus d |}])))).

Fixpoint format_loop (results : query_result) (idxs : list Z) (formatted_results : list hit)
  : result (list hit) :=
  match idxs with
  | [] => Ok formatted_results
  | i :: r => rbind (format_result results formatted_results i) (format_loop results r)
  end.

(** The condition [results['documents'] and results['documents'][0]] *)
Definition has_documents (results : query_result) : bool :=
  match documents results with
  | Some ((_ :: _) :: _) => true
  | _ => false
  end.

Definition format_results (results : query_result) : result (list hit) :=
  if has_documents results
  then rbind (first_of (documents results)) (fun d =>
       rbind (range 0 (len d) 1) (fun idxs =>
       format_loop results idxs []))
  else Ok [].

Variable w : World.

(** The statements of the [try] block *)
Definition query_body (query_text : str) (top_k : Z) : result (list hit) :=
  rbind (persistent_client w) (fun _ =>
  rbind (get_collection w) (fun collection =>
  rbind (sentence_transformer w) (fun _ =>
  rbind (encode w query_text) (fun query_embedding =>
  rbind (query w collection query_embedding top_k) (fun results =>
  format_results results))))).

Definition query_database (query_text : str) (top_k : Z) : M state (list hit) :=
  try_except (lift (query_body query_text top_k))
             (fun e => print_err (lit "Error querying database: " ++ exn_str e) ;;; ret []).

(** The [__main__] block, run on [sys.argv]. *)
Definition main (argv : list str) : M state unit :=
  if (len argv <? 2)%Z
  then print (Line (lit "Usage: python query_database.py <query> [top_k]")) ;;;
       raise (SystemExit 1)
  else
    query <- lift (getitem argv 1) ;;
    top_k <- (if (2 <? len argv)%Z
              then a <- lift (getitem argv 2) ;;
                   lift (int (uni_decimal w) (max_str_digits w) a)
              else ret 5%Z) ;;
    results <- query_database query top_k ;;
    print (Json results).

(** How the process ends *)
Inductive termination : Type :=
| Finished
| Exited (code : Z)
| Crashed (e : exn).

(** The interpreter around the script: an exception that reaches the top is
    reported by a traceback on standard error; [sys.exit] only sets the
    status. *)
Definition run (argv : list str) : state * termination :=
  match main argv initial with
  | (s, Ok _) => (s, Finished)
  | (s, Raise (SystemExit c)) => (s, Exited c)
  | (s, Raise e) =>
      ({| stdout := stdout s;
          stderr := stderr s ++ [lit "Traceback (most recent call last): " ++ exn_str e] |},
       Crashed e)
  end.

End Query.

Arguments Line {float metadata} s.
Arguments initial {float metadata}.

End QueryDatabase.

Import ProcessBooks.

Unset Implicit Arguments.

(** ** Sample inputs and notions used in the statements *)

(** A text of [n] words, each followed by a space. *)
Definition text_of_words (n : nat) : str := List.concat (repeat (lit "om ") n).

(** One word of sixty characters. *)
Definition long_word : str := repeat 97%N 60.

(** Rounding the quotient of [a] by a positive [b] upwards. *)
Definition ceil_div (a b : Z) : Z := ((a + b - 1) / b)%Z.

(** A word as [split] gives them: not empty and free of whitespace. *)
Definition is_word_of_split (w : str) : Prop :=
  w <> [] /\ Forall (fun c => isspace c = false) w.

Definition sample_store : Type := list (str * str).

Definition sample_add (c : sample_store) (docs : list str) (embeddings : list unit)
    (metadatas : list metadata) (ids : list str) : result sample_store :=
  Ok (c ++ combine ids docs).

Definition sample_read_pdf (path : str) : result (list (result str)) :=
  if str_eqb path (lit "books/bad.pdf")
  then Ok [Ok (text_of_words 30); Raise (LibraryError (lit "corrupt page"))]
  else if str_eqb path (lit "books/empty.pdf") then Ok [Ok (lit "  ")]
  else if str_eqb path (lit "books/good.pdf") then Ok [Ok (text_of_words 30)]
  else Raise (LibraryError (lit "No such file")).

(** A folder [books] with the listed names: [bad.pdf] has one readable page
    and a second one that fails, [empty.pdf] holds blanks only. *)
Definition sample_world (names : list str) : World unit sample_store :=
  {| uni_alnum := fun _ => false;
     listdir := fun _ => Ok names;
     read_pdf := sample_read_pdf;
     encode := fun chunks => Ok (map (fun _ => tt) chunks);
     collection_add := sample_add |}.

(** A store whose collection exists when [present] holds and then contains
    the documents [docs], each at distance 1/4 of the query. *)
Definition sample_query_world (present : bool) (docs : list str)
  : QueryDatabase.World Q unit unit unit :=
  {| QueryDatabase.uni_decimal := fun _ => None;
     QueryDatabase.max_str_digits := 4300;
     QueryDatabase.persistent_client := Ok tt;
     QueryDatabase.get_collection :=
       if present then Ok tt
       else Raise (ValueError (lit "Collection spiritual_books does not exist."));
     QueryDatabase.sentence_transformer := Ok tt;
     QueryDatabase.encode := fun _ => Ok tt;
     QueryDatabase.query := fun _ _ top_k =>
       if (top_k <=? 0)%Z
       then Raise (TypeError (lit "Number of requested results cannot be negative, or zero."))
       else let found := firstn (Z.to_nat top_k) docs in
            Ok {| QueryDatabase.documents := Some [found];
                  QueryDatabase.metadatas := Some [map (fun _ => tt) found];
                  QueryDatabase.distances := Some [map (fun _ => (1 # 4)%Q) found] |} |}.

Definition sample_one_minus (d : Q) : Q := (1 - d)%Q.

(** No whitespace other than the space character, and no two whitespace
    characters in a row; [after_space] tells that a whitespace character
    comes just before. *)
Fixpoint single_spaced (after_space : bool) (s : str) : bool :=
  match s with
  | [] => true
  | c :: r =>
      if isspace c
      then (N.eqb c space && negb after_space && single_spaced true r)%bool
      else single_spaced false r
  end.

(** The identifier that [add_chunk] gives to the chunk described by a
    metadata record. *)
Definition id_of_metadata (m : metadata) : str :=
  book m ++ lit "_chunk_" ++ of_int (chunk_id m).

(** The three pending lists describe the same chunks: they have the same
    length, each id is the one of the metadata at the same place, and each
    book name is the one of the source file, which is among [files]. *)
Definition aligned (files : list str) (acc : pending) : Prop :=
  List.length (all_metadatas acc) = List.length (all_chunks acc)
  /\ all_ids acc = map id_of_metadata (all_metadatas acc)
  /\ Forall (fun m => In (source m) files /\ book m = book_name_of (source m))
            (all_metadatas acc).

(** The results for documents, metadata and distances taken place by
    place. *)
Definition hits_of {float metadata : Type} (one_minus : float -> float)
    (docs : list str) (metas : list metadata) (dists : list float)
  : list (QueryDatabase.hit float metadata) :=
  map (fun x => {| QueryDatabase.content := fst (fst x);
                   QueryDatabase.hit_metadata := snd (fst x);
                   QueryDatabase.score := one_minus (snd x) |})
      (combine (combine docs metas) dists).

(** The sample folder with an encoder that fails on a batch of fewer than
    a hundred chunks. *)
Definition failing_encoder_world (names : list str) : World unit sample_store :=
  {| uni_alnum := fun _ => false;
     listdir := fun _ => Ok names;
     read_pdf := sample_read_pdf;
     encode := fun chunks =>
       if (len chunks <? 100)%Z
       then Raise (LibraryError (lit "out of memory"))
       else Ok (map (fun _ => tt) chunks);
     collection_add := sample_add |}.

(** A hundred and fifty pending chunks. *)
Definition sample_pending : pending :=
  {| all_chunks := repeat (lit "chunk") 150;
     all_metadatas := repeat {| book := lit "b"; chunk_id := 0; source := lit "b.pdf" |} 150;
     all_ids := repeat (lit "b_chunk_0") 150 |}.

(** A user who answers [answer] to the prompt, on a machine where every
    path exists or none does. *)
Definition sample_main_world (answer : str) (present : bool) : MainWorld :=
  {| input := Ok answer;
     path_exists := fun _ => present;
     book_rag_processor := fun _ => Ok tt |}.

(** A store that answers with one document and no metadata. *)
Definition incomplete_query_world : QueryDatabase.World Q unit unit unit :=
  {| QueryDatabase.uni_decimal := fun _ => None;
     QueryDatabase.max_str_digits := 4300;
     QueryDatabase.persistent_client := Ok tt;
     QueryDatabase.get_collection := Ok tt;
     QueryDatabase.sentence_transformer := Ok tt;
     QueryDatabase.encode := fun _ => Ok tt;
     QueryDatabase.query := fun _ _ _ =>
       Ok {| QueryDatabase.documents := Some [[lit "one"]];
             QueryDatabase.metadatas := None;
             QueryDatabase.distances := Some [[(1 # 4)%Q]] |} |}.

(** The name of a [.pdf] file without its extension: the name less its
    last four characters. *)
Definition without_extension (f : str) : str :=
  firstn (List.length f - List.length (lit ".pdf")) f.

(** The calls of the batch loop that succeeded: for each index in turn the
    encoder gave the embeddings of [all_chunks[i:i + batch_size]] and
    [collection.add] took that batch, with the metadata and the ids at the
    same bounds, from the collection [c] to the next one. *)
Inductive stored_in_batches {embedding collection : Type}
    (w : World embedding collection) (acc : pending)
  : list Z -> collection -> collection -> Prop :=
| stored_none (c : collection) : stored_in_batches w acc [] c c
| stored_batch (i : Z) (rest : list Z) (c c' c'' : collection)
    (embeddings : list embedding) :
    encode w (slice (all_chunks acc) i (i + batch_size)) = Ok embeddings ->
    collection_add w c (slice (all_chunks acc) i (i + batch_size)) embeddings
                   (slice (all_metadatas acc) i (i + batch_size))
                   (slice (all_ids acc) i (i + batch_size)) = Ok c' ->
    stored_in_batches w acc rest c' c'' ->
    stored_in_batches w acc (i :: rest) c c''.

(** ** Facts about the builtins *)

Section RangeFacts.

Variable step : Z.
Hypothesis step_pos : (0 < step)%Z.

Lemma ceil_div_nonpos (a : Z) : (a <= 0)%Z -> (ceil_div a step <= 0)%Z.
Proof.
  intros Ha. unfold ceil_div.
  assert ((a + step - 1) / step < 1)%Z; [|lia].
  apply Z.div_lt_upper_bound; lia.
Qed.

Lemma ceil_div_step (a : Z) : ceil_div a step = (1 + ceil_div (a - step) step)%Z.
Proof.
  unfold ceil_div.
  replace (a + step - 1)%Z with ((a - step + step - 1) + 1 * step)%Z by lia.
  rewrite Z.div_add by lia. lia.
Qed.

Lemma ceil_div_pos (a : Z) : (0 < a)%Z -> (0 < ceil_div a step)%Z.
Proof.
  intros Ha. rewrite ceil_div_step.
  assert (0 <= ceil_div (a - step) step)%Z; [|lia].
  unfold ceil_div. apply Z.div_pos; lia.
Qed.

(** With enough fuel [range_up] lists [i], [i + step], ... below [stop]:
    there are [ceil_div (stop - i) step] of them. *)
Lemma range_up_elements (fuel : nat) :
  forall i stop,
    (Z.to_nat (stop - i) <= fuel)%nat ->
    range_up fuel i stop step
    = map (fun k => (i + Z.of_nat k * step)%Z)
          (seq 0 (Z.to_nat (ceil_div (stop - i) step))).
Proof.
  induction fuel as [|f IH]; intros i stop Hf; simpl.
  - assert (H := ceil_div_nonpos (stop - i)%Z ltac:(lia)).
    replace (Z.to_nat (ceil_div (stop - i) step)) with 0%nat by lia. reflexivity.
  - destruct (Z.ltb_spec i stop) as [Hlt|Hge].
    + rewrite IH by lia.
      assert (Hp := ceil_div_pos (stop - i)%Z ltac:(lia)).
      rewrite (ceil_div_step (stop - i)) in *.
      replace (stop - i - step)%Z with (stop - (i + step))%Z in * by lia.
      set (c := ceil_div (stop - (i + step)) step) in *.
      replace (Z.to_nat (1 + c)) with (S (Z.to_nat c)) by lia.
      simpl. f_equal; [lia|].
      rewrite <- seq_shift, map_map.
      apply map_ext. intros k. lia.
    + assert (H := ceil_div_nonpos (stop - i)%Z ltac:(lia)).
      replace (Z.to_nat (ceil_div (stop - i) step)) with 0%nat by lia. reflexivity.
Qed.

Lemma range_positive_step (stop : Z) :
  range 0 stop step
  = Ok (map (fun k => (Z.of_nat k * step)%Z) (seq 0 (Z.to_nat (ceil_div stop step)))).
Proof.
  unfold range.
  destruct (Z.eqb_spec step 0); [lia|].
  destruct (Z.ltb_spec 0 step); [|lia].
  rewrite range_up_elements by lia.
  rewrite Z.sub_0_r. reflexivity.
Qed.

End RangeFacts.

Lemma range_down_from_zero (fuel : nat) (stop step : Z) :
  (0 <= stop)%Z -> range_down fuel 0 stop step = [].
Proof.
  intros H. destruct fuel; simpl; [reflexivity|].
  destruct (Z.ltb_spec stop 0); [lia|reflexivity].
Qed.

Lemma len_nonneg {A} (l : list A) : (0 <= len l)%Z.
Proof. unfold len. lia. Qed.

Lemma slice_length {A} (l : list A) (i j : Z) :
  (0 <= i)%Z -> (0 <= j)%Z ->
  len (slice l i j) = Z.max 0 (Z.min (Z.min j (len l) - Z.min i (len l)) (len l - i)).
Proof.
  intros Hi Hj. unfold slice, slice_bound.
  destruct (Z.ltb_spec i 0); [lia|].
  destruct (Z.ltb_spec j 0); [lia|].
  unfold len. rewrite length_firstn, length_skipn. lia.
Qed.

(** ** The chunker *)

Lemma nth_map_seq {A} (f : nat -> A) (n k : nat) (d : A) :
  (k < n)%nat -> nth k (map f (seq 0 n)) d = f k.
Proof.
  intros Hk.
  rewrite (nth_indep _ d (f 0%nat)) by (rewrite length_map, length_seq; exact Hk).
  rewrite map_nth, seq_nth by exact Hk. reflexivity.
Qed.

Lemma raw_windows_positive_step (text : str) (chunk_size overlap : Z) :
  (overlap < chunk_size)%Z ->
  raw_windows text chunk_size overlap
  = Ok (map (fun k => slice (split text)
                            (Z.of_nat k * (chunk_size - overlap))
                            (Z.of_nat k * (chunk_size - overlap) + chunk_size))
            (seq 0 (Z.to_nat (ceil_div (len (split text)) (chunk_size - overlap))))).
Proof.
  intros H. unfold raw_windows.
  rewrite range_positive_step by lia. simpl. rewrite map_map. reflexivity.
Qed.

(** The loop of [chunk_text] keeps, in order, the joined windows that pass
    the length test. *)
Lemma chunk_loop_filter (words : list str) (chunk_size : Z) (idxs : list Z) :
  forall chunks,
    fold_left (chunk_step words chunk_size) idxs chunks
    = chunks ++ filter (fun c => (50 <? len (strip c))%Z)
                       (map (fun i => join (lit " ") (slice words i (i + chunk_size))) idxs).
Proof.
  induction idxs as [|i r IH]; intros chunks; simpl.
  - rewrite app_nil_r. reflexivity.
  - rewrite IH. unfold chunk_step.
    destruct (50 <? len (strip (join (lit " ") (slice words i (i + chunk_size)))))%Z.
    + rewrite <- app_assoc. reflexivity.
    + reflexivity.
Qed.

Lemma chunk_text_filters_raw_windows (text : str) (chunk_size overlap : Z) :
  chunk_text text chunk_size overlap
  = rbind (raw_windows text chunk_size overlap)
          (fun ws => Ok (filter (fun c => (50 <? len (strip c))%Z)
                                (map (join (lit " ")) ws))).
Proof.
  unfold chunk_text, raw_windows.
  destruct (range 0 (len (split text)) (chunk_size - overlap)) as [idxs|e]; simpl.
  - rewrite chunk_loop_filter, map_map. reflexivity.
  - reflexivity.
Qed.

(** C1, amended: with the default parameters a text of L words gives
    exactly ceil(L / (chunk_size - overlap)) raw windows; the window that
    starts at word 450 * k holds min(500, L - 450 * k) words, so every
    window except possibly the last two holds exactly chunk_size words. *)
Theorem raw_windows_default_count (text : str) :
  exists ws,
    raw_windows text default_chunk_size default_overlap = Ok ws
    /\ len ws = ceil_div (len (split text)) (default_chunk_size - default_overlap)
    /\ (forall k, (k < List.length ws)%nat ->
          len (nth k ws []) = Z.min 500 (len (split text) - 450 * Z.of_nat k))
    /\ (forall k, (k + 2 < List.length ws)%nat ->
          len (nth k ws []) = default_chunk_size).
Proof.
  rewrite raw_windows_positive_step by (unfold default_chunk_size, default_overlap; lia).
  change (default_chunk_size - default_overlap)%Z with 450%Z.
  unfold default_chunk_size.
  set (L := len (split text)).
  assert (HL : (0 <= L)%Z) by apply len_nonneg.
  assert (Hc : (0 <= ceil_div L 450)%Z) by (unfold ceil_div; apply Z.div_pos; lia).
  assert (Hm : (450 * ceil_div L 450 <= L + 449)%Z)
    by (unfold ceil_div; replace (L + 450 - 1)%Z with (L + 449)%Z by lia;
        apply Z.mul_div_le; lia).
  eexists. split; [reflexivity|].
  assert (Hsize : forall k, (k < Z.to_nat (ceil_div L 450))%nat ->
            len (nth k (map (fun k0 => slice (split text) (Z.of_nat k0 * 450)
                                             (Z.of_nat k0 * 450 + 500))
                            (seq 0 (Z.to_nat (ceil_div L 450)))) [])
            = Z.min 500 (L - 450 * Z.of_nat k)).
  { intros k Hk. rewrite nth_map_seq by exact Hk.
    rewrite slice_length by lia. fold L. lia. }
  repeat split.
  - unfold len at 1. rewrite length_map, length_seq. lia.
  - intros k Hk. rewrite length_map, length_seq in Hk. apply Hsize. exact Hk.
  - intros k Hk. rewrite length_map, length_seq in Hk.
    rewrite Hsize by lia. lia.
Qed.

Lemma raw_windows_default_count_witness :
  exists ws,
    raw_windows (text_of_words 600) default_chunk_size default_overlap = Ok ws
    /\ len ws = 2%Z
    /\ len (nth 0 ws []) = 500%Z
    /\ len (nth 1 ws []) = 150%Z.
Proof.
  destruct (raw_windows_default_count (text_of_words 600)) as (ws & E & Hn & Hsize & _).
  assert (H2 : len ws = 2%Z) by (rewrite Hn; vm_compute; reflexivity).
  assert (Hl : List.length ws = 2%nat) by (unfold len in H2; lia).
  exists ws. split; [exact E|]. split; [exact H2|]. split.
  - rewrite (Hsize 0%nat) by (rewrite Hl; lia). vm_compute. reflexivity.
  - rewrite (Hsize 1%nat) by (rewrite Hl; lia). vm_compute. reflexivity.
Defined.

(** C1 as stated fails on a text of 460 words: the loop makes two windows
    where the stated formula gives one, and the first window, which is not
    the last, holds 460 words. *)
Lemma raw_windows_stated_count_fails :
  ~ (forall ws,
       raw_windows (text_of_words 460) default_chunk_size default_overlap = Ok ws ->
       len ws = ceil_div (len (split (text_of_words 460)) - default_overlap)
                         (default_chunk_size - default_overlap)
       /\ (forall k, (k + 1 < List.length ws)%nat ->
             len (nth k ws []) = default_chunk_size)).
Proof.
  intros H.
  destruct (raw_windows (text_of_words 460) default_chunk_size default_overlap)
    as [ws|e] eqn:E.
  - destruct (H ws eq_refl) as [Hn _].
    assert (Hws : len ws = 2%Z).
    { generalize E. rewrite raw_windows_positive_step by (vm_compute; reflexivity).
      intros E'. injection E' as <-. reflexivity. }
    rewrite Hws in Hn. vm_compute in Hn. discriminate Hn.
  - generalize E. rewrite raw_windows_positive_step by (vm_compute; reflexivity).
    discriminate.
Qed.

(** C9: every chunk returned by [chunk_text] has more than 50 characters
    once trimmed, for every text and all parameters. *)
Theorem chunk_text_chunks_exceed_filter (text : str) (chunk_size overlap : Z)
    (chunks : list str) :
  chunk_text text chunk_size overlap = Ok chunks ->
  Forall (fun c => (50 < len (strip c))%Z) chunks.
Proof.
  rewrite chunk_text_filters_raw_windows.
  destruct (raw_windows text chunk_size overlap) as [ws|e]; simpl; [|discriminate].
  intros E. injection E as <-.
  apply Forall_forall. intros c Hc.
  apply filter_In in Hc. destruct Hc as [_ Hc].
  apply Z.ltb_lt. exact Hc.
Qed.

Lemma chunk_text_chunks_exceed_filter_witness :
  chunk_text long_word 500 50 = Ok [long_word]
  /\ Forall (fun c => (50 < len (strip c))%Z) [long_word].
Proof.
  split; [reflexivity|].
  apply (chunk_text_chunks_exceed_filter long_word 500 50 [long_word]).
  reflexivity.
Defined.

(** C4, amended: [chunk_text] has no guard of its own.  When overlap equals
    chunk_size the zero step makes [range] raise a ValueError; when overlap
    exceeds chunk_size the loop runs no iteration and the empty list is
    returned without any error.  No case loops. *)
Theorem chunk_text_nonpositive_step (text : str) (chunk_size overlap : Z) :
  (chunk_size <= overlap)%Z ->
  (overlap = chunk_size ->
   chunk_text text chunk_size overlap
   = Raise (ValueError (lit "range() arg 3 must not be zero")))
  /\ ((chunk_size < overlap)%Z -> chunk_text text chunk_size overlap = Ok []).
Proof.
  intros Hle. unfold chunk_text, range. split.
  - intros ->. rewrite Z.sub_diag. reflexivity.
  - intros Hlt.
    destruct (Z.eqb_spec (chunk_size - overlap) 0); [lia|].
    destruct (Z.ltb_spec 0 (chunk_size - overlap)); [lia|].
    rewrite range_down_from_zero by apply len_nonneg. reflexivity.
Qed.

Lemma chunk_text_nonpositive_step_witness :
  chunk_text long_word 50 50 = Raise (ValueError (lit "range() arg 3 must not be zero"))
  /\ chunk_text long_word 50 60 = Ok [].
Proof.
  split.
  - apply (chunk_text_nonpositive_step long_word 50 50); [lia|reflexivity].
  - apply (chunk_text_nonpositive_step long_word 50 60); lia.
Defined.

(** C4 as stated fails for chunk_size 50 and overlap 60 on a text that is
    one word of sixty characters: the call returns the empty list and
    raises nothing, although every valid pair of parameters returns that
    word as the only chunk, so the parameters were not replaced by valid
    ones either. *)
Lemma chunk_text_unguarded :
  chunk_text long_word 50 60 = Ok []
  /\ (forall chunk_size overlap,
        (0 < chunk_size)%Z -> (overlap < chunk_size)%Z ->
        chunk_text long_word chunk_size overlap = Ok [long_word]).
Proof.
  split; [reflexivity|].
  intros chunk_size overlap Hc Ho.
  unfold chunk_text.
  change (split long_word) with [long_word].
  change (len [long_word]) with 1%Z.
  unfold range.
  destruct (Z.eqb_spec (chunk_size - overlap) 0); [lia|].
  destruct (Z.ltb_spec 0 (chunk_size - overlap)); [|lia].
  change (Z.to_nat (1 - 0)) with 1%nat. simpl.
  unfold chunk_step, slice, slice_bound.
  change (len [long_word]) with 1%Z.
  destruct (Z.ltb_spec 0 0); [lia|].
  destruct (Z.ltb_spec (0 + chunk_size) 0); [lia|].
  replace (Z.to_nat (Z.min (0 + chunk_size) 1 - Z.min 0 1)) with 1%nat by lia.
  reflexivity.
Qed.

(** *** Words and joined windows *)

Lemma split_from_words (s : str) :
  forall cur,
    Forall (fun c => isspace c = false) cur ->
    Forall is_word_of_split (split_from cur s).
Proof.
  induction s as [|c r IH]; intros cur Hcur; simpl.
  - destruct cur as [|x cur']; constructor; [|constructor].
    split.
    + intros E. apply (f_equal (@List.length _)) in E.
      rewrite length_rev in E. discriminate E.
    + apply Forall_rev. exact Hcur.
  - destruct (isspace c) eqn:Ec.
    + destruct cur as [|x cur'].
      * apply IH. constructor.
      * constructor; [|apply IH; constructor].
        split.
        -- intros E. apply (f_equal (@List.length _)) in E.
           rewrite length_rev in E. discriminate E.
        -- apply Forall_rev. exact Hcur.
    + apply IH. constructor; assumption.
Qed.

Lemma split_words (s : str) : Forall is_word_of_split (split s).
Proof. apply split_from_words. constructor. Qed.

Lemma lstrip_no_leading_space (c : char) (r : str) :
  isspace c = false -> lstrip (c :: r) = c :: r.
Proof. intros H. simpl. rewrite H. reflexivity. Qed.

(** A string that begins and ends with a character that is not whitespace
    is left as it is by [strip]. *)
Lemma strip_fixed (s : str) (a b : char) (r r' : str) :
  s = a :: r -> rev s = b :: r' ->
  isspace a = false -> isspace b = false ->
  strip s = s.
Proof.
  intros Es Er Ha Hb. unfold strip, rstrip.
  rewrite Es at 1. rewrite lstrip_no_leading_space by exact Ha.
  rewrite <- Es, Er, lstrip_no_leading_space by exact Hb.
  rewrite <- Er. apply rev_involutive.
Qed.

Lemma word_first_char (w : str) :
  is_word_of_split w -> exists a r, w = a :: r /\ isspace a = false.
Proof.
  intros [Hne Hall]. destruct w as [|a r]; [congruence|].
  exists a, r. split; [reflexivity|]. inversion Hall; assumption.
Qed.

Lemma word_last_char (w : str) :
  is_word_of_split w -> exists b r, rev w = b :: r /\ isspace b = false.
Proof.
  intros [Hne Hall].
  destruct (rev w) as [|b r] eqn:E.
  - apply (f_equal (@List.length _)) in E. rewrite length_rev in E.
    destruct w; [congruence|discriminate E].
  - exists b, r. split; [reflexivity|].
    apply Forall_rev in Hall. rewrite E in Hall. inversion Hall; assumption.
Qed.

Lemma join_first_char (sep : str) (ws : list str) :
  ws <> [] -> Forall is_word_of_split ws ->
  exists a r, join sep ws = a :: r /\ isspace a = false.
Proof.
  intros Hne Hall. destruct ws as [|w rest]; [congruence|].
  inversion Hall as [|? ? Hw Hrest]; subst.
  destruct (word_first_char w Hw) as (a & r & -> & Ha).
  destruct rest as [|w' rest']; simpl.
  - exists a, r. split; [reflexivity|exact Ha].
  - eexists a, _. split; [reflexivity|exact Ha].
Qed.

Lemma join_last_char (sep : str) (ws : list str) :
  ws <> [] -> Forall is_word_of_split ws ->
  exists b r, rev (join sep ws) = b :: r /\ isspace b = false.
Proof.
  induction ws as [|w rest IH]; intros Hne Hall; [congruence|].
  inversion Hall as [|? ? Hw Hrest]; subst.
  destruct rest as [|w' rest'].
  - simpl. apply word_last_char. exact Hw.
  - destruct (IH ltac:(discriminate) Hrest) as (b & r & E & Hb).
    change (join sep (w :: w' :: rest')) with (w ++ sep ++ join sep (w' :: rest')).
    rewrite !rev_app_distr, E. simpl.
    eexists b, _. split; [reflexivity|exact Hb].
Qed.

Lemma join_length_lower_bound (sep : str) (ws : list str) :
  Forall is_word_of_split ws -> (len ws <= len (join sep ws))%Z.
Proof.
  unfold len. induction ws as [|w rest IH]; intros Hall; [simpl; lia|].
  inversion Hall as [|? ? Hw Hrest]; subst.
  destruct (word_first_char w Hw) as (a & r & -> & _).
  specialize (IH Hrest).
  destruct rest as [|w' rest'].
  - simpl. lia.
  - change (join sep ((a :: r) :: w' :: rest'))
      with ((a :: r) ++ sep ++ join sep (w' :: rest')).
    rewrite !length_app. simpl List.length in *. lia.
Qed.

(** A joined window of words of a split text is not changed by [strip],
    and has at least as many characters as words. *)
Lemma strip_join_words (sep : str) (ws : list str) :
  Forall is_word_of_split ws -> strip (join sep ws) = join sep ws.
Proof.
  intros Hall. destruct ws as [|w rest] eqn:E; [reflexivity|]. rewrite <- E in *.
  assert (Hne : ws <> []) by (rewrite E; discriminate).
  destruct (join_first_char sep ws Hne Hall) as (a & r & Ea & Ha).
  destruct (join_last_char sep ws Hne Hall) as (b & r' & Eb & Hb).
  exact (strip_fixed _ a b r r' Ea Eb Ha Hb).
Qed.

Lemma Forall_firstn_part {A} (P : A -> Prop) (n : nat) (l : list A) :
  Forall P l -> Forall P (firstn n l).
Proof.
  intros H. rewrite <- (firstn_skipn n l) in H.
  apply Forall_app in H. exact (proj1 H).
Qed.

Lemma Forall_skipn_part {A} (P : A -> Prop) (n : nat) (l : list A) :
  Forall P l -> Forall P (skipn n l).
Proof.
  intros H. rewrite <- (firstn_skipn n l) in H.
  apply Forall_app in H. exact (proj2 H).
Qed.

Lemma slice_words (ws : list str) (i j : Z) :
  Forall is_word_of_split ws -> Forall is_word_of_split (slice ws i j).
Proof.
  intros H. unfold slice. apply Forall_firstn_part, Forall_skipn_part. exact H.
Qed.

(** C8: a text of exactly 600 words gives, with chunk_size 500 and overlap
    50, exactly two chunks: the join of words[0:500] and the join of
    words[450:600], which holds 150 words.  Both always pass the
    50-character test, a word having at least one character. *)
Theorem chunk_text_600_words (text : str) :
  len (split text) = 600%Z ->
  chunk_text text 500 50
  = Ok [join (lit " ") (slice (split text) 0 500);
        join (lit " ") (slice (split text) 450 600)]
  /\ len (slice (split text) 0 500) = 500%Z
  /\ len (slice (split text) 450 600) = 150%Z
  /\ (50 < len (strip (join (lit " ") (slice (split text) 0 500))))%Z
  /\ (50 < len (strip (join (lit " ") (slice (split text) 450 600))))%Z.
Proof.
  intros HL.
  assert (Hw := split_words text).
  assert (L1 : len (slice (split text) 0 500) = 500%Z)
    by (rewrite slice_length, HL by lia; reflexivity).
  assert (L2 : len (slice (split text) 450 600) = 150%Z)
    by (rewrite slice_length, HL by lia; reflexivity).
  assert (E2 : slice (split text) 450 (450 + 500) = slice (split text) 450 600)
    by (unfold slice; rewrite HL; reflexivity).
  assert (F1 : (50 < len (strip (join (lit " ") (slice (split text) 0 500))))%Z).
  { rewrite strip_join_words by (apply slice_words; exact Hw).
    assert (B := join_length_lower_bound (lit " ") (slice (split text) 0 500)
                   (slice_words _ _ _ Hw)).
    lia. }
  assert (F2 : (50 < len (strip (join (lit " ") (slice (split text) 450 600))))%Z).
  { rewrite strip_join_words by (apply slice_words; exact Hw).
    assert (B := join_length_lower_bound (lit " ") (slice (split text) 450 600)
                   (slice_words _ _ _ Hw)).
    lia. }
  repeat split; try assumption.
  unfold chunk_text. rewrite HL.
  change (range 0 600 (500 - 50)) with (Ok [0%Z; 450%Z]).
  cbn [rbind fold_left]. unfold chunk_step.
  change (0 + 500)%Z with 500%Z. rewrite E2.
  apply Z.ltb_lt in F1, F2. rewrite F1. cbn [app]. rewrite F2. reflexivity.
Qed.

Lemma chunk_text_600_words_witness :
  len (split (text_of_words 600)) = 600%Z
  /\ exists first second,
       chunk_text (text_of_words 600) 500 50 = Ok [first; second].
Proof.
  split; [vm_compute; reflexivity|].
  eexists _, _.
  exact (proj1 (chunk_text_600_words (text_of_words 600) ltac:(vm_compute; reflexivity))).
Defined.

(** ** The text normalizer *)

Lemma lstrip_Forall (P : char -> Prop) (s : str) :
  Forall P s -> Forall P (lstrip s).
Proof.
  induction 1 as [|c r Hc Hr IH]; simpl; [constructor|].
  destruct (isspace c); [exact IH|constructor; assumption].
Qed.

Lemma strip_Forall (P : char -> Prop) (s : str) :
  Forall P s -> Forall P (strip s).
Proof.
  intros H. unfold strip, rstrip.
  apply Forall_rev, lstrip_Forall, Forall_rev, lstrip_Forall. exact H.
Qed.

Lemma lstrip_first_char (s : str) (c : char) (r : str) :
  lstrip s = c :: r -> isspace c = false.
Proof.
  induction s as [|x s' IH]; simpl; [discriminate|].
  destruct (isspace x) eqn:Ex; [exact IH|].
  intros E. injection E as <- _. exact Ex.
Qed.

Lemma lstrip_keeps_last (l : str) (c : char) :
  isspace c = false -> exists p, lstrip (l ++ [c]) = p ++ [c].
Proof.
  intros Hc. induction l as [|x l' IH]; simpl.
  - rewrite Hc. exists []. reflexivity.
  - destruct (isspace x); [exact IH|].
    exists (x :: l'). reflexivity.
Qed.

(** The result of [strip] neither begins nor ends with whitespace. *)
Lemma strip_first_char (s : str) (c : char) (r : str) :
  strip s = c :: r -> isspace c = false.
Proof.
  unfold strip, rstrip.
  destruct (lstrip s) as [|a t] eqn:E; [discriminate|].
  assert (Ha := lstrip_first_char s a t E).
  simpl rev at 2.
  destruct (lstrip_keeps_last (rev t) a Ha) as [p ->].
  rewrite rev_app_distr. simpl. intros E'. injection E' as <- _. exact Ha.
Qed.

Lemma strip_last_char (s : str) (c : char) (r : str) :
  rev (strip s) = c :: r -> isspace c = false.
Proof.
  unfold strip, rstrip. rewrite rev_involutive. apply lstrip_first_char.
Qed.

(** The parts of C3 that hold: the characters of the output are allowed
    ones, the output neither begins nor ends with whitespace, and the
    empty text gives the empty text. *)
Lemma clean_text_allowed (ua : char -> bool) (text : str) :
  Forall (fun c => allowed ua c = true) (clean_text ua text).
Proof.
  unfold clean_text, sub_special_characters.
  apply strip_Forall, Forall_forall.
  intros c Hc. apply filter_In in Hc. exact (proj2 Hc).
Qed.

Lemma clean_text_trimmed (ua : char -> bool) (text : str) :
  (forall c r, clean_text ua text = c :: r -> isspace c = false)
  /\ (forall c r, rev (clean_text ua text) = c :: r -> isspace c = false).
Proof.
  unfold clean_text. split; intros c r.
  - apply strip_first_char.
  - apply strip_last_char.
Qed.

Lemma clean_text_empty (ua : char -> bool) : clean_text ua [] = [].
Proof. reflexivity. Qed.

(** C2 fails on the text "a @ b": removing the character between the two
    spaces leaves them side by side, and a second pass merges them. *)
Theorem clean_text_second_pass_differs (ua : char -> bool) :
  clean_text ua (lit "a @ b") = lit "a  b"
  /\ clean_text ua (clean_text ua (lit "a @ b")) = lit "a b"
  /\ clean_text ua (clean_text ua (lit "a @ b")) <> clean_text ua (lit "a @ b").
Proof.
  assert (E1 : clean_text ua (lit "a @ b") = lit "a  b") by reflexivity.
  assert (E2 : clean_text ua (lit "a  b") = lit "a b") by reflexivity.
  rewrite E1, E2. repeat split. discriminate.
Qed.

(** C3 fails on the same text: the output "a  b" holds a run of two
    spaces, the whitespace runs being merged before the special characters
    are removed. *)
Theorem clean_text_keeps_whitespace_run (ua : char -> bool) :
  exists before after,
    clean_text ua (lit "a @ b") = before ++ space :: space :: after.
Proof.
  exists (lit "a"), (lit "b"). reflexivity.
Qed.

(** ** The ingestion run *)

Section IngestionFacts.

Variables embedding collection : Type.
Variable w : World embedding collection.
Variable folder : str.

Lemma for_each_app {A B} (body : B -> A -> M (state collection) B) (l1 l2 : list A) :
  forall acc s,
    for_each body (l1 ++ l2) acc s
    = bind (for_each body l1 acc) (fun acc' => for_each body l2 acc') s.
Proof.
  induction l1 as [|x r IH]; intros acc s; simpl.
  - reflexivity.
  - unfold bind. destruct (body acc x s) as [s' [acc'|e]].
    + rewrite IH. reflexivity.
    + reflexivity.
Qed.

Lemma chunk_text_default_ok (text : str) :
  exists chunks, chunk_text text default_chunk_size default_overlap = Ok chunks.
Proof.
  rewrite chunk_text_filters_raw_windows.
  rewrite raw_windows_positive_step by (unfold default_chunk_size, default_overlap; lia).
  eexists. reflexivity.
Qed.

Lemma add_chunks_all_chunks (f : str) (chunks : list str) :
  forall i acc,
    all_chunks (fold_left (add_chunk f) (enumerate_from i chunks) acc)
    = all_chunks acc ++ chunks.
Proof.
  induction chunks as [|c r IH]; intros i acc; simpl.
  - rewrite app_nil_r. reflexivity.
  - rewrite IH. simpl. rewrite <- app_assoc. reflexivity.
Qed.

(** One turn of the loop on a document whose extraction raises an
    exception: the exception is caught and printed, the collection and the
    summary file are left alone, the document adds nothing when the text
    read before the failure is blank and the chunks of that text
    otherwise, and the loop goes on. *)
Lemma failed_extraction_step (f : str) (rest : list str) (acc : pending)
    (s : state collection) (text : str) (e : exn) :
  read_document w (path_join folder f) = (text, Some e) ->
  is_Exception e = true ->
  exists s' acc',
    process_book w folder acc f s = (s', Ok acc')
    /\ In (lit "Error reading " ++ path_join folder f ++ lit ": " ++ exn_str e) (stdout s')
    /\ db s' = db s
    /\ summary_file s' = summary_file s
    /\ (strip text = [] -> acc' = acc)
    /\ (strip text <> [] ->
        exists chunks,
          chunk_text (clean_text (uni_alnum w) text) default_chunk_size default_overlap
          = Ok chunks
          /\ all_chunks acc' = all_chunks acc ++ chunks)
    /\ for_each (process_book w folder) (f :: rest) acc s
       = for_each (process_book w folder) rest acc' s'.
Proof.
  intros Hread He.
  assert (Hstep : exists s' acc',
    process_book w folder acc f s = (s', Ok acc')
    /\ In (lit "Error reading " ++ path_join folder f ++ lit ": " ++ exn_str e) (stdout s')
    /\ db s' = db s
    /\ summary_file s' = summary_file s
    /\ (strip text = [] -> acc' = acc)
    /\ (strip text <> [] ->
        exists chunks,
          chunk_text (clean_text (uni_alnum w) text) default_chunk_size default_overlap
          = Ok chunks
          /\ all_chunks acc' = all_chunks acc ++ chunks)).
  { unfold process_book, extract_text_from_pdf, extract_failed.
    rewrite Hread, He.
    destruct (strip text) as [|c r] eqn:Es.
    - eexists _, acc. split.
      + unfold bind, print, ret. cbn [stdout db summary_file]. rewrite Es. reflexivity.
      + cbn [stdout db summary_file].
        repeat split; try reflexivity; try congruence.
        rewrite !in_app_iff. left. right. left. reflexivity.
    - destruct (chunk_text_default_ok (clean_text (uni_alnum w) text)) as [chunks Ec].
      eexists _, _. split.
      + unfold bind, print, ret, lift. cbn [stdout db summary_file].
        rewrite Es, Ec. reflexivity.
      + cbn [stdout db summary_file]. repeat split; try reflexivity; try congruence.
        * rewrite !in_app_iff. left. right. left. reflexivity.
        * intros _. exists chunks. split; [exact Ec|].
          unfold enumerate. apply add_chunks_all_chunks. }
  destruct Hstep as (s' & acc' & Hp & Hrest).
  exists s', acc'. split; [exact Hp|].
  repeat split; try apply Hrest.
  simpl. unfold bind at 1. rewrite Hp. reflexivity.
Qed.

End IngestionFacts.

(** C5 as stated fails for a document whose first page is read and whose
    second page raises: the exception is caught, yet the document is not
    skipped and its chunk reaches the collection. *)
Lemma failed_document_reaches_the_store :
  exists e,
    snd (read_document (sample_world [lit "bad.pdf"])
                       (path_join (lit "books") (lit "bad.pdf"))) = Some e
    /\ is_Exception e = true
    /\ exists chunk,
         db (fst (process_all_books (sample_world [lit "bad.pdf"]) (lit "books")
                                    (initial [])))
         = [(lit "bad_chunk_0", chunk)].
Proof.
  eexists. split; [reflexivity|]. split; [reflexivity|].
  eexists. vm_compute. reflexivity.
Qed.

Lemma startswith_prefix (p s : str) :
  startswith p s = true -> exists q, s = p ++ q.
Proof.
  revert s. induction p as [|x p' IH]; intros s H; simpl in *.
  - exists s. reflexivity.
  - destruct s as [|y s']; [discriminate|].
    apply andb_prop in H. destruct H as [Hxy Hrest].
    apply N.eqb_eq in Hxy. subst y.
    destruct (IH s' Hrest) as [q ->]. exists q. reflexivity.
Qed.

(** [book_name_of] removes every occurrence of [.pdf]; for a file name in
    which [.pdf] occurs at the end only, it is the name without its
    extension. *)
Lemma book_name_of_extension (b : str) :
  (forall p q, b ++ lit ".pdf" = p ++ lit ".pdf" ++ q -> q = []) ->
  book_name_of (b ++ lit ".pdf") = b.
Proof.
  induction b as [|c b' IH]; intros Honly.
  - reflexivity.
  - unfold book_name_of, replace in *.
    change ((c :: b') ++ lit ".pdf") with (c :: (b' ++ lit ".pdf")).
    cbn [replace_from].
    destruct (startswith (lit ".pdf") (c :: b' ++ lit ".pdf")) eqn:Es.
    + apply startswith_prefix in Es. destruct Es as [q Eq].
      assert (Hq := Honly [] q Eq). subst q.
      apply (f_equal (@List.length _)) in Eq.
      rewrite app_nil_r in Eq. simpl in Eq. rewrite length_app in Eq.
      simpl in Eq. lia.
    + f_equal. apply IH. intros p q E.
      apply (Honly (c :: p) q). simpl. rewrite E. reflexivity.
Qed.

Lemma endswith_suffix (p s : str) :
  endswith p s = true -> exists b, s = b ++ p.
Proof.
  unfold endswith. intros H. apply startswith_prefix in H. destruct H as [q E].
  exists (rev q). rewrite <- (rev_involutive s), E, rev_app_distr, rev_involutive.
  reflexivity.
Qed.

Lemma without_extension_app (b : str) : without_extension (b ++ lit ".pdf") = b.
Proof.
  unfold without_extension. rewrite length_app, Nat.add_sub.
  rewrite firstn_app, Nat.sub_diag, firstn_all. simpl. apply app_nil_r.
Qed.

(** For a name that ends in [.pdf] and holds [.pdf] nowhere else,
    [book_name_of] gives the name without its extension. *)
Lemma book_name_of_without_extension (f : str) :
  endswith (lit ".pdf") f = true ->
  (forall p q, f = p ++ lit ".pdf" ++ q -> q = []) ->
  book_name_of f = without_extension f.
Proof.
  intros Hend Honly. destruct (endswith_suffix _ _ Hend) as [b ->].
  rewrite without_extension_app. apply book_name_of_extension. exact Honly.
Qed.

Section SummaryFacts.

Variables embedding collection : Type.
Variable w : World embedding collection.
Variable folder : str.

Lemma print_summary_file (line : str) (s : state collection) :
  summary_file (fst (print line s)) = summary_file s.
Proof. reflexivity. Qed.

Lemma bind_summary_file {A B} (m : M (state collection) A)
    (k : A -> M (state collection) B) :
  (forall s, summary_file (fst (m s)) = summary_file s) ->
  (forall a s, summary_file (fst (k a s)) = summary_file s) ->
  forall s, summary_file (fst (bind m k s)) = summary_file s.
Proof.
  intros Hm Hk s. unfold bind. specialize (Hm s).
  destruct (m s) as [s' [a|e]]; simpl in *.
  - rewrite Hk. exact Hm.
  - exact Hm.
Qed.

Lemma for_each_summary_file {A B} (body : B -> A -> M (state collection) B)
    (l : list A) :
  (forall acc x s, summary_file (fst (body acc x s)) = summary_file s) ->
  forall acc s, summary_file (fst (for_each body l acc s)) = summary_file s.
Proof.
  intros Hb. induction l as [|x r IH]; intros acc s; simpl.
  - reflexivity.
  - apply bind_summary_file; [intros; apply Hb|intros; apply IH].
Qed.

Lemma lift_summary_file {A} (r : result A) (s : state collection) :
  summary_file (fst (lift r s)) = summary_file s.
Proof. reflexivity. Qed.

Lemma extract_text_summary_file (pdf_path : str) (s : state collection) :
  summary_file (fst (extract_text_from_pdf w pdf_path s)) = summary_file s.
Proof.
  unfold extract_text_from_pdf, extract_failed.
  destruct (read_document w pdf_path) as [text [e|]]; [|reflexivity].
  destruct (is_Exception e); reflexivity.
Qed.

Lemma process_book_summary_file (acc : pending) (f : str) (s : state collection) :
  summary_file (fst (process_book w folder acc f s)) = summary_file s.
Proof.
  unfold process_book.
  apply bind_summary_file; [intros; apply print_summary_file|]. intros _.
  apply bind_summary_file; [intros; apply extract_text_summary_file|]. intros raw_text.
  destruct (strip raw_text).
  - apply bind_summary_file; [intros; apply print_summary_file|reflexivity].
  - apply bind_summary_file; [intros; apply lift_summary_file|]. intros chunks.
    apply bind_summary_file; [intros; apply print_summary_file|reflexivity].
Qed.

Lemma store_batch_summary_file (acc : pending) (u : unit) (i : Z) (s : state collection) :
  summary_file (fst (store_batch w acc u i s)) = summary_file s.
Proof.
  unfold store_batch.
  apply bind_summary_file; [intros; apply lift_summary_file|]. intros embeddings.
  apply bind_summary_file; [reflexivity|]. intros c.
  apply bind_summary_file; [intros; apply lift_summary_file|]. intros c'.
  apply bind_summary_file; [reflexivity|]. intros _.
  apply print_summary_file.
Qed.

(** C10, amended: the summary that [process_all_books] writes counts every
    [.pdf] name of the folder and lists, for each of them in the order of
    the listing, the name with every occurrence of [.pdf] removed, as
    [f.replace('.pdf', '')] gives it; that is the name without its
    extension for every file whose name holds [.pdf] at its end only.
    This is so whatever the extraction of the document gave: a document
    skipped for lack of text is counted and listed too. *)
Theorem summary_lists_every_pdf (c : collection) (names : list str) (v : summary) :
  listdir w folder = Ok names ->
  summary_file (fst (process_all_books w folder (initial c))) = Some v ->
  total_books v = len (filter (endswith (lit ".pdf")) names)
  /\ books_processed v = map book_name_of (filter (endswith (lit ".pdf")) names)
  /\ (forall f, In f names -> endswith (lit ".pdf") f = true ->
        In (book_name_of f) (books_processed v))
  /\ (forall f, In f names -> endswith (lit ".pdf") f = true ->
        (forall p q, f = p ++ lit ".pdf" ++ q -> q = []) ->
        book_name_of f = without_extension f
        /\ In (without_extension f) (books_processed v)).
Proof.
  intros Hnames Hv.
  assert (Hmain : total_books v = len (filter (endswith (lit ".pdf")) names)
                  /\ books_processed v
                     = map book_name_of (filter (endswith (lit ".pdf")) names)).
  { revert Hv. unfold process_all_books.
    unfold bind at 1. cbn [print initial stdout db summary_file].
    unfold bind at 1. unfold lift at 1. rewrite Hnames.
    destruct (filter (endswith (lit ".pdf")) names) as [|f0 fs] eqn:Ef;
      [discriminate|].
    set (s1 := {| stdout := _; db := c; summary_file := None |}).
    unfold bind at 1.
    assert (H1 := for_each_summary_file (process_book w folder) (f0 :: fs)
                    (process_book_summary_file) no_pending s1).
    destruct (for_each (process_book w folder) (f0 :: fs) no_pending s1)
      as [s2 [acc|e]]; cbn [fst] in H1; [|cbn [fst]; rewrite H1; discriminate].
    unfold bind at 1. cbn [print stdout db summary_file].
    unfold bind at 1. unfold lift at 1.
    destruct (range 0 (len (all_chunks acc)) batch_size) as [idxs|e];
      [|cbn [fst summary_file]; rewrite H1; discriminate].
    set (s3 := {| stdout := _; db := db s2; summary_file := summary_file s2 |}).
    unfold bind at 1.
    assert (H3 := for_each_summary_file (store_batch w acc) idxs
                    (store_batch_summary_file acc) tt s3).
    destruct (for_each (store_batch w acc) idxs tt s3) as [s4 [u|e]]; cbn [fst] in H3;
      [|cbn [fst]; rewrite H3; subst s3; cbn [summary_file]; rewrite H1; discriminate].
    unfold bind, print, write_summary. cbn [fst stdout db summary_file].
    intros E. injection E as <-. split; reflexivity. }
  assert (Hin : forall f, In f names -> endswith (lit ".pdf") f = true ->
                 In (book_name_of f) (books_processed v)).
  { intros f Hf Hpdf. rewrite (proj2 Hmain).
    apply in_map, filter_In. split; assumption. }
  split; [exact (proj1 Hmain)|]. split; [exact (proj2 Hmain)|].
  split; [exact Hin|].
  intros f Hf Hpdf Honly.
  assert (E := book_name_of_without_extension f Hpdf Honly).
  split; [exact E|]. rewrite <- E. exact (Hin f Hf Hpdf).
Qed.

End SummaryFacts.

Lemma only_extension_empty_pdf (p q : str) :
  lit "empty.pdf" = p ++ lit ".pdf" ++ q -> q = [].
Proof.
  intros E.
  do 6 (destruct p as [|? p];
        [simpl in E; injection E; intros; subst; try reflexivity; discriminate
        |simpl in E; injection E as _ E]).
  apply (f_equal (@List.length _)) in E.
  rewrite !length_app in E. simpl in E. lia.
Qed.

Lemma summary_lists_every_pdf_witness :
  summary_file (fst (process_all_books
                       (sample_world [lit "good.pdf"; lit "empty.pdf"; lit "notes.txt"])
                       (lit "books") (initial [])))
  = Some {| total_books := 2; total_chunks := 1;
            books_processed := [lit "good"; lit "empty"] |}
  /\ without_extension (lit "empty.pdf") = lit "empty"
  /\ In (without_extension (lit "empty.pdf"))
        (books_processed {| total_books := 2; total_chunks := 1;
                            books_processed := [lit "good"; lit "empty"] |}).
Proof.
  assert (E : summary_file (fst (process_all_books
                       (sample_world [lit "good.pdf"; lit "empty.pdf"; lit "notes.txt"])
                       (lit "books") (initial [])))
              = Some {| total_books := 2; total_chunks := 1;
                        books_processed := [lit "good"; lit "empty"] |})
    by (vm_compute; reflexivity).
  split; [exact E|]. split; [reflexivity|].
  destruct (summary_lists_every_pdf unit sample_store
              (sample_world [lit "good.pdf"; lit "empty.pdf"; lit "notes.txt"])
              (lit "books") []
              [lit "good.pdf"; lit "empty.pdf"; lit "notes.txt"]
              _ eq_refl E) as (_ & _ & _ & Hbase).
  apply (Hbase (lit "empty.pdf")).
  - right. left. reflexivity.
  - reflexivity.
  - exact only_extension_empty_pdf.
Defined.

(** C10 as stated fails for a file named [a.pdf.pdf]: the summary lists
    [a], where the name without its extension is [a.pdf]. *)
Lemma summary_lists_replaced_name :
  ~ (forall v,
       summary_file (fst (process_all_books (sample_world [lit "a.pdf.pdf"])
                                            (lit "books") (initial [])))
       = Some v ->
       books_processed v
       = map without_extension (filter (endswith (lit ".pdf")) [lit "a.pdf.pdf"])).
Proof.
  intros H.
  assert (E : summary_file (fst (process_all_books (sample_world [lit "a.pdf.pdf"])
                                                   (lit "books") (initial [])))
              = Some {| total_books := 1; total_chunks := 0;
                        books_processed := [lit "a"] |})
    by (vm_compute; reflexivity).
  specialize (H _ E). vm_compute in H. discriminate H.
Qed.

(** ** Windows and batches *)

(** For bounds [0 <= i <= j] a slice is a [firstn] of a [skipn], whatever
    the length of the list. *)
Lemma slice_firstn_skipn {A} (l : list A) (i j : Z) :
  (0 <= i)%Z -> (i <= j)%Z ->
  slice l i j = firstn (Z.to_nat (j - i)) (skipn (Z.to_nat i) l).
Proof.
  intros Hi Hj. unfold slice, slice_bound.
  destruct (Z.ltb_spec i 0); [lia|].
  destruct (Z.ltb_spec j 0); [lia|].
  unfold len.
  destruct (Z.le_gt_cases (Z.of_nat (List.length l)) i) as [Hout|Hin].
  - rewrite (skipn_all2 l) by lia.
    rewrite (skipn_all2 l) by lia.
    rewrite !firstn_nil. reflexivity.
  - replace (Z.min i (Z.of_nat (List.length l))) with i by lia.
    destruct (Z.le_gt_cases (Z.of_nat (List.length l)) j) as [Hj'|Hj'].
    + replace (Z.min j (Z.of_nat (List.length l))) with (Z.of_nat (List.length l)) by lia.
      rewrite !firstn_all2 by (rewrite length_skipn; lia). reflexivity.
    + replace (Z.min j (Z.of_nat (List.length l))) with j by lia. reflexivity.
Qed.

(** Cutting a list into consecutive pieces of [s] elements and putting the
    pieces together again gives the list back. *)
Lemma pieces_concat {A} (s : nat) :
  (0 < s)%nat ->
  forall (n : nat) (l : list A),
    (List.length l <= n * s)%nat ->
    List.concat (map (fun k => firstn s (skipn (k * s) l)) (seq 0 n)) = l.
Proof.
  intros Hs. induction n as [|n IH]; intros l Hl.
  - destruct l; [reflexivity|simpl in Hl; lia].
  - cbn [seq map List.concat]. rewrite <- seq_shift, map_map.
    rewrite (map_ext _ (fun k => firstn s (skipn (k * s) (skipn s l)))).
    + rewrite IH by (rewrite length_skipn; lia).
      simpl. apply firstn_skipn.
    + intros k. rewrite skipn_skipn. f_equal. f_equal. lia.
Qed.

Lemma ceil_div_covers (L step : Z) :
  (0 < step)%Z -> (L <= ceil_div L step * step)%Z.
Proof.
  intros Hs. unfold ceil_div.
  assert (H := Z.div_mod (L + step - 1) step ltac:(lia)).
  assert (H' := Z.mod_pos_bound (L + step - 1) step Hs).
  lia.
Qed.

Lemma ceil_div_nonneg (L step : Z) :
  (0 <= L)%Z -> (0 < step)%Z -> (0 <= ceil_div L step)%Z.
Proof. intros HL Hs. unfold ceil_div. apply Z.div_pos; lia. Qed.

(** The slices [l[i:i + step]] taken at the indices of
    [range(0, len(l), step)] partition the list. *)
Lemma range_slices_concat {A} (l : list A) (step : Z) :
  (0 < step)%Z ->
  exists idxs,
    range 0 (len l) step = Ok idxs
    /\ List.concat (map (fun i => slice l i (i + step)) idxs) = l.
Proof.
  intros Hs. rewrite range_positive_step by exact Hs.
  eexists. split; [reflexivity|].
  rewrite map_map.
  rewrite (map_ext _ (fun k => firstn (Z.to_nat step) (skipn (k * Z.to_nat step) l))).
  - apply pieces_concat; [lia|].
    assert (H := ceil_div_covers (len l) step Hs).
    assert (H0 := ceil_div_nonneg (len l) step (len_nonneg l) Hs).
    unfold len in *. nia.
  - intros k. rewrite slice_firstn_skipn by nia.
    f_equal; [f_equal; lia|f_equal; nia].
Qed.

Lemma range_from_zero_bounds (stop step : Z) (idxs : list Z) :
  (0 <= stop)%Z ->
  range 0 stop step = Ok idxs ->
  Forall (fun i => (0 <= i < stop)%Z) idxs.
Proof.
  intros Hstop. unfold range.
  destruct (Z.eqb_spec step 0); [discriminate|].
  destruct (Z.ltb_spec 0 step) as [Hpos|Hneg].
  - rewrite range_up_elements by lia. rewrite Z.sub_0_r.
    intros E. injection E as <-.
    apply Forall_forall. intros i Hi.
    apply in_map_iff in Hi. destruct Hi as (k & <- & Hk).
    apply in_seq in Hk.
    assert (Hc := ceil_div_nonneg stop step Hstop Hpos).
    assert (Hm : (step * ceil_div stop step <= stop + step - 1)%Z)
      by (unfold ceil_div; apply Z.mul_div_le; lia).
    nia.
  - rewrite range_down_from_zero by exact Hstop.
    intros E. injection E as <-. constructor.
Qed.

(** The slices [l[i:i + batch_size]] at the indices of
    [range(0, len(l), batch_size)] partition a list in order, and each
    holds between one and a hundred elements, as many as the length of the
    list and the index tell. *)
Lemma batches_partition {A} (l : list A) :
  exists idxs,
    range 0 (len l) batch_size = Ok idxs
    /\ List.concat (map (fun i => slice l i (i + batch_size)) idxs) = l
    /\ Forall (fun i => len (slice l i (i + batch_size)) = Z.min 100 (len l - i)
                        /\ (1 <= len (slice l i (i + batch_size)) <= 100)%Z) idxs.
Proof.
  destruct (range_slices_concat l batch_size ltac:(reflexivity)) as (idxs & Er & Ec).
  exists idxs. split; [exact Er|]. split; [exact Ec|].
  assert (Hb := range_from_zero_bounds (len l) batch_size idxs (len_nonneg l) Er).
  apply Forall_forall. intros i Hi.
  rewrite Forall_forall in Hb. specialize (Hb i Hi).
  unfold batch_size in *. rewrite slice_length by lia. lia.
Qed.

(** X1: for every chunk_size and overlap with overlap < chunk_size the loop
    of [chunk_text] makes ceil(L / (chunk_size - overlap)) windows over the
    L words of the text, and the window of rank k holds
    min(chunk_size, L - k * (chunk_size - overlap)) words. *)
Theorem raw_windows_count (text : str) (chunk_size overlap : Z) :
  (0 <= chunk_size)%Z -> (overlap < chunk_size)%Z ->
  exists ws,
    raw_windows text chunk_size overlap = Ok ws
    /\ len ws = ceil_div (len (split text)) (chunk_size - overlap)
    /\ (forall k, (k < List.length ws)%nat ->
          len (nth k ws [])
          = Z.min chunk_size (len (split text) - Z.of_nat k * (chunk_size - overlap))).
Proof.
  intros Hc Ho. rewrite raw_windows_positive_step by exact Ho.
  set (step := (chunk_size - overlap)%Z). set (L := len (split text)).
  assert (HL : (0 <= L)%Z) by apply len_nonneg.
  assert (Hn := ceil_div_nonneg L step HL ltac:(subst step; lia)).
  assert (Hm : (step * ceil_div L step <= L + step - 1)%Z)
    by (unfold ceil_div; apply Z.mul_div_le; subst step; lia).
  eexists. split; [reflexivity|]. split.
  - unfold len at 1. rewrite length_map, length_seq. lia.
  - intros k Hk. rewrite length_map, length_seq in Hk.
    rewrite nth_map_seq by exact Hk.
    rewrite slice_length by (subst step; nia). fold L. subst step. nia.
Qed.

(** X2: with 0 <= overlap < chunk_size no word is left out of the windows:
    the first chunk_size - overlap words of each window, put end to end,
    are the words of the text. *)
Theorem raw_windows_cover_words (text : str) (chunk_size overlap : Z) :
  (0 <= overlap)%Z -> (overlap < chunk_size)%Z ->
  exists ws,
    raw_windows text chunk_size overlap = Ok ws
    /\ List.concat (map (firstn (Z.to_nat (chunk_size - overlap))) ws) = split text.
Proof.
  intros H0 Ho. rewrite raw_windows_positive_step by exact Ho.
  eexists. split; [reflexivity|].
  rewrite map_map.
  set (s := Z.to_nat (chunk_size - overlap)).
  rewrite (map_ext _ (fun k => firstn s (skipn (k * s) (split text)))).
  - apply pieces_concat; [subst s; lia|].
    assert (H := ceil_div_covers (len (split text)) (chunk_size - overlap) ltac:(lia)).
    assert (Hn := ceil_div_nonneg (len (split text)) (chunk_size - overlap)
                    (len_nonneg _) ltac:(lia)).
    unfold len in *. subst s. nia.
  - intros k. rewrite slice_firstn_skipn by nia.
    rewrite firstn_firstn.
    f_equal; [subst s; lia|f_equal; subst s; nia].
Qed.

(** X3: consecutive windows share overlap words: what a window holds after
    its first chunk_size - overlap words is the beginning, at most overlap
    words long, of the next window. *)
Theorem raw_windows_overlap (text : str) (chunk_size overlap : Z) :
  (0 <= overlap)%Z -> (overlap < chunk_size)%Z ->
  exists ws,
    raw_windows text chunk_size overlap = Ok ws
    /\ (forall k, (S k < List.length ws)%nat ->
          skipn (Z.to_nat (chunk_size - overlap)) (nth k ws [])
          = firstn (Z.to_nat overlap) (nth (S k) ws [])).
Proof.
  intros H0 Ho. rewrite raw_windows_positive_step by exact Ho.
  eexists. split; [reflexivity|].
  intros k Hk. rewrite length_map, length_seq in Hk.
  rewrite !nth_map_seq by lia.
  rewrite !slice_firstn_skipn by nia.
  rewrite skipn_firstn_comm, skipn_skipn, firstn_firstn.
  f_equal; [lia|f_equal; nia].
Qed.

Lemma raw_windows_count_witness :
  exists ws,
    raw_windows (text_of_words 10) 4 1 = Ok ws
    /\ len ws = 4%Z
    /\ len (nth 3 ws []) = 1%Z.
Proof.
  destruct (raw_windows_count (text_of_words 10) 4 1 ltac:(lia) ltac:(lia))
    as (ws & E & Hn & Hsize).
  assert (H4 : len ws = 4%Z) by (rewrite Hn; vm_compute; reflexivity).
  exists ws. split; [exact E|]. split; [exact H4|].
  rewrite (Hsize 3%nat) by (unfold len in H4; lia). vm_compute. reflexivity.
Defined.

Lemma raw_windows_cover_words_witness :
  exists ws,
    raw_windows (text_of_words 10) 4 1 = Ok ws
    /\ List.concat (map (firstn 3) ws) = split (text_of_words 10).
Proof.
  exact (raw_windows_cover_words (text_of_words 10) 4 1 ltac:(lia) ltac:(lia)).
Defined.

Lemma raw_windows_overlap_witness :
  exists ws,
    raw_windows (text_of_words 10) 4 1 = Ok ws
    /\ skipn 3 (nth 0 ws []) = firstn 1 (nth 1 ws []).
Proof.
  destruct (raw_windows_overlap (text_of_words 10) 4 1 ltac:(lia) ltac:(lia))
    as (ws & E & H).
  exists ws. split; [exact E|].
  apply (H 0%nat).
  generalize E. vm_compute. intros E'. injection E' as <-. vm_compute. lia.
Defined.

(** ** Chunks and words *)

Lemma split_from_word (w : str) :
  Forall (fun c => isspace c = false) w ->
  forall cur s, split_from cur (w ++ s) = split_from (rev w ++ cur) s.
Proof.
  induction 1 as [|c w' Hc Hw IH]; intros cur s.
  - reflexivity.
  - simpl. rewrite Hc, IH, <- app_assoc. reflexivity.
Qed.

Lemma rev_word_nonempty (w : str) : w <> [] -> rev w <> [].
Proof.
  intros Hne E. apply (f_equal (@rev _)) in E.
  rewrite rev_involutive in E. exact (Hne E).
Qed.

(** Splitting the join of words gives the words back. *)
Lemma split_join_words (ws : list str) :
  Forall is_word_of_split ws -> split (join (lit " ") ws) = ws.
Proof.
  unfold split. induction 1 as [|w rest [Hne Hw] Hrest IH].
  - reflexivity.
  - destruct rest as [|w' rest'].
    + simpl. rewrite <- (app_nil_r w) at 1.
      rewrite split_from_word by exact Hw. rewrite app_nil_r. simpl.
      destruct (rev w) eqn:E; [exfalso; exact (rev_word_nonempty w Hne E)|].
      rewrite <- E, rev_involutive. reflexivity.
    + change (join (lit " ") (w :: w' :: rest'))
        with (w ++ space :: join (lit " ") (w' :: rest')).
      rewrite split_from_word by exact Hw. rewrite app_nil_r.
      cbn [split_from]. change (isspace space) with true. cbn iota.
      destruct (rev w) eqn:E; [exfalso; exact (rev_word_nonempty w Hne E)|].
      rewrite <- E, rev_involutive, IH. reflexivity.
Qed.

(** X4: every chunk that [chunk_text] returns is the join of a window
    words[i:i + chunk_size] with i >= 0; splitting the chunk gives that
    window back, so a chunk holds at most chunk_size words. *)
Theorem chunk_splits_into_its_window (text : str) (chunk_size overlap : Z)
    (chunks : list str) :
  (0 <= chunk_size)%Z ->
  chunk_text text chunk_size overlap = Ok chunks ->
  Forall (fun c => exists i,
            (0 <= i < len (split text))%Z
            /\ c = join (lit " ") (slice (split text) i (i + chunk_size))
            /\ split c = slice (split text) i (i + chunk_size)
            /\ (len (split c) <= chunk_size)%Z) chunks.
Proof.
  intros Hcs. unfold chunk_text.
  destruct (range 0 (len (split text)) (chunk_size - overlap)) as [idxs|e] eqn:Er;
    [|discriminate].
  cbn [rbind]. rewrite chunk_loop_filter. cbn [app].
  intros E. injection E as <-.
  assert (Hb := range_from_zero_bounds _ _ _ (len_nonneg _) Er).
  rewrite Forall_forall in Hb.
  apply Forall_forall. intros c Hc.
  apply filter_In in Hc. destruct Hc as [Hc _].
  apply in_map_iff in Hc. destruct Hc as (i & <- & Hi).
  exists i. split; [exact (Hb i Hi)|]. split; [reflexivity|].
  assert (Es : split (join (lit " ") (slice (split text) i (i + chunk_size)))
               = slice (split text) i (i + chunk_size))
    by (apply split_join_words, slice_words, split_words).
  split; [exact Es|].
  rewrite Es, slice_length by (specialize (Hb i Hi); lia).
  specialize (Hb i Hi). lia.
Qed.

Lemma join_cons_length (sep w : str) (rest : list str) :
  (len (join sep rest) <= len (join sep (w :: rest)))%Z
  /\ (len w <= len (join sep (w :: rest)))%Z.
Proof.
  unfold len. destruct rest as [|w' rest'].
  - simpl. lia.
  - change (join sep (w :: w' :: rest')) with (w ++ sep ++ join sep (w' :: rest')).
    rewrite !length_app. lia.
Qed.

Lemma join_skipn_length (sep : str) (n : nat) :
  forall ws, (len (join sep (skipn n ws)) <= len (join sep ws))%Z.
Proof.
  induction n as [|n IH]; intros ws; [simpl; lia|].
  destruct ws as [|w rest]; [simpl; lia|].
  simpl skipn. specialize (IH rest).
  destruct (join_cons_length sep w rest). lia.
Qed.

Lemma join_firstn_length (sep : str) (n : nat) :
  forall ws, (len (join sep (firstn n ws)) <= len (join sep ws))%Z.
Proof.
  induction n as [|n IH]; intros ws; [simpl; unfold len; simpl; lia|].
  destruct ws as [|w rest]; [simpl; lia|].
  simpl firstn. specialize (IH rest).
  destruct rest as [|w' rest'].
  - rewrite firstn_nil. lia.
  - destruct n as [|n'].
    + simpl firstn. destruct (join_cons_length sep w (w' :: rest')). exact H0.
    + simpl firstn in *.
      change (join sep (w :: w' :: firstn n' rest'))
        with (w ++ sep ++ join sep (w' :: firstn n' rest')).
      change (join sep (w :: w' :: rest')) with (w ++ sep ++ join sep (w' :: rest')).
      unfold len in *. rewrite !length_app. lia.
Qed.

Lemma join_slice_length (sep : str) (ws : list str) (i j : Z) :
  (len (join sep (slice ws i j)) <= len (join sep ws))%Z.
Proof.
  unfold slice.
  etransitivity; [apply join_firstn_length|apply join_skipn_length].
Qed.

Lemma lstrip_length (s : str) : (len (lstrip s) <= len s)%Z.
Proof.
  unfold len. induction s as [|c r IH]; simpl; [lia|].
  destruct (isspace c); simpl; lia.
Qed.

Lemma strip_length (s : str) : (len (strip s) <= len s)%Z.
Proof.
  unfold strip, rstrip.
  assert (H1 := lstrip_length (rev (lstrip s))).
  assert (H2 := lstrip_length s).
  unfold len in *. rewrite length_rev in *. lia.
Qed.

(** The words of a text, joined by single spaces, take no more characters
    than the text. *)
Lemma join_split_from_length (s : str) :
  forall cur,
    (len (join (lit " ") (split_from cur s)) <= len cur + len s)%Z.
Proof.
  unfold len. induction s as [|c r IH]; intros cur.
  - simpl. destruct cur; simpl; [lia|].
    rewrite length_app, length_rev. simpl. lia.
  - cbn [split_from]. destruct (isspace c).
    + destruct cur as [|x cur'].
      * specialize (IH []). simpl List.length in *. lia.
      * specialize (IH []).
        destruct (split_from [] r) as [|w' rest'] eqn:E.
        -- simpl. rewrite length_app, length_rev. simpl. lia.
        -- change (join (lit " ") (rev (x :: cur') :: w' :: rest'))
             with (rev (x :: cur') ++ space :: join (lit " ") (w' :: rest')).
           rewrite length_app, length_rev. simpl List.length in *. lia.
    + specialize (IH (c :: cur)). simpl List.length in *. lia.
Qed.

Lemma join_split_length (text : str) :
  (len (join (lit " ") (split text)) <= len text)%Z.
Proof.
  assert (H := join_split_from_length text []). unfold len in *. simpl in H. exact H.
Qed.

(** X5: a text of at most 50 characters, or a text without any word, gives
    no chunk at all, whatever the parameters, as long as the step is not
    zero. *)
Theorem chunk_text_of_small_text (text : str) (chunk_size overlap : Z) :
  (len text <= 50)%Z \/ split text = [] ->
  chunk_size <> overlap ->
  chunk_text text chunk_size overlap = Ok [].
Proof.
  intros Hsmall Hstep.
  assert (Hj : (len (join (lit " ") (split text)) <= 50)%Z).
  { destruct Hsmall as [H|H].
    - assert (H' := join_split_length text). lia.
    - rewrite H. unfold len. simpl. lia. }
  unfold chunk_text.
  destruct (range 0 (len (split text)) (chunk_size - overlap)) as [idxs|e] eqn:Er.
  - cbn [rbind]. rewrite chunk_loop_filter. cbn [app]. f_equal.
    clear Er. induction idxs as [|i r IH]; [reflexivity|].
    cbn [map filter].
    assert (H1 := strip_length (join (lit " ") (slice (split text) i (i + chunk_size)))).
    assert (H2 := join_slice_length (lit " ") (split text) i (i + chunk_size)).
    destruct (Z.ltb_spec 50
      (len (strip (join (lit " ") (slice (split text) i (i + chunk_size)))))); [lia|].
    exact IH.
  - exfalso. unfold range in Er.
    destruct (Z.eqb_spec (chunk_size - overlap) 0); [lia|].
    destruct (0 <? chunk_size - overlap)%Z; discriminate.
Qed.

(** X6: with overlap < chunk_size there are at most
    ceil(L / (chunk_size - overlap)) chunks for a text of L words, and they
    are the joined windows that pass the length test, in the order of the
    windows. *)
Theorem chunk_text_count_bound (text : str) (chunk_size overlap : Z) :
  (overlap < chunk_size)%Z ->
  exists ws chunks,
    raw_windows text chunk_size overlap = Ok ws
    /\ chunk_text text chunk_size overlap = Ok chunks
    /\ chunks = filter (fun c => (50 <? len (strip c))%Z) (map (join (lit " ")) ws)
    /\ (len chunks <= ceil_div (len (split text)) (chunk_size - overlap))%Z.
Proof.
  intros Ho. rewrite chunk_text_filters_raw_windows.
  rewrite raw_windows_positive_step by exact Ho.
  eexists _, _. split; [reflexivity|]. split; [reflexivity|]. split; [reflexivity|].
  assert (Hn := ceil_div_nonneg (len (split text)) (chunk_size - overlap)
                  (len_nonneg _) ltac:(lia)).
  unfold len at 1.
  assert (H := filter_length_le (fun c => (50 <? len (strip c))%Z)
                 (map (join (lit " "))
                    (map (fun k => slice (split text)
                                     (Z.of_nat k * (chunk_size - overlap))
                                     (Z.of_nat k * (chunk_size - overlap) + chunk_size))
                         (seq 0 (Z.to_nat (ceil_div (len (split text))
                                                    (chunk_size - overlap))))))).
  rewrite !length_map, length_seq in H. lia.
Qed.

Lemma chunk_splits_into_its_window_witness :
  chunk_text long_word 500 50 = Ok [long_word]
  /\ Forall (fun c => exists i,
               (0 <= i < len (split long_word))%Z
               /\ c = join (lit " ") (slice (split long_word) i (i + 500))
               /\ split c = slice (split long_word) i (i + 500)
               /\ (len (split c) <= 500)%Z) [long_word].
Proof.
  split; [reflexivity|].
  apply (chunk_splits_into_its_window long_word 500 50 [long_word]); [lia|reflexivity].
Defined.

Lemma chunk_text_of_small_text_witness :
  (len (lit "Be still.") <= 50)%Z
  /\ chunk_text (lit "Be still.") 500 50 = Ok [].
Proof.
  assert (H : (len (lit "Be still.") <= 50)%Z) by (vm_compute; discriminate).
  split; [exact H|].
  apply (chunk_text_of_small_text (lit "Be still.") 500 50); [left; exact H|lia].
Defined.

Lemma chunk_text_count_bound_witness :
  exists chunks,
    chunk_text (text_of_words 600) 500 50 = Ok chunks
    /\ (len chunks <= 2)%Z.
Proof.
  destruct (chunk_text_count_bound (text_of_words 600) 500 50 ltac:(lia))
    as (ws & chunks & _ & E & _ & Hb).
  exists chunks. split; [exact E|].
  assert (H2 : ceil_div (len (split (text_of_words 600))) (500 - 50) = 2%Z)
    by (vm_compute; reflexivity).
  rewrite H2 in Hb. exact Hb.
Defined.

(** ** The normalizer on clean input *)

Lemma sub_whitespace_runs_single_spaced (s : str) :
  forall b, single_spaced b (sub_whitespace_runs b s) = true.
Proof.
  induction s as [|c r IH]; intros b; simpl; [reflexivity|].
  destruct (isspace c) eqn:Ec.
  - destruct b; [apply IH|].
    simpl. change (isspace space) with true. cbn iota. rewrite IH. reflexivity.
  - simpl. rewrite Ec. apply IH.
Qed.

Lemma single_spaced_fixed (s : str) :
  forall b, single_spaced b s = true -> sub_whitespace_runs b s = s.
Proof.
  induction s as [|c r IH]; intros b H; simpl in *; [reflexivity|].
  destruct (isspace c).
  - apply andb_prop in H. destruct H as [H Hr].
    apply andb_prop in H. destruct H as [Hc Hb].
    apply N.eqb_eq in Hc. subst c.
    destruct b; [discriminate|]. rewrite (IH true Hr). reflexivity.
  - rewrite (IH false H). reflexivity.
Qed.

Lemma single_spaced_weaken (s : str) (b : bool) :
  single_spaced b s = true -> single_spaced false s = true.
Proof.
  destruct s as [|c r]; [reflexivity|]. simpl.
  destruct (isspace c); [|exact (fun H => H)].
  destruct b; [|exact (fun H => H)].
  rewrite andb_false_r. discriminate.
Qed.

Lemma single_spaced_prefix (p q : str) :
  forall b, single_spaced b (p ++ q) = true -> single_spaced b p = true.
Proof.
  induction p as [|c r IH]; intros b H; simpl in *; [reflexivity|].
  destruct (isspace c).
  - apply andb_prop in H. destruct H as [H Hr]. rewrite H, (IH true Hr). reflexivity.
  - exact (IH false H).
Qed.

Lemma single_spaced_lstrip (s : str) :
  single_spaced false s = true -> single_spaced false (lstrip s) = true.
Proof.
  induction s as [|c r IH]; intros H; [reflexivity|].
  simpl lstrip. destruct (isspace c) eqn:Ec; [|exact H].
  apply IH. simpl in H. rewrite Ec in H.
  apply andb_prop in H. exact (single_spaced_weaken r true (proj2 H)).
Qed.

Lemma lstrip_suffix (s : str) : exists p, s = p ++ lstrip s.
Proof.
  induction s as [|c r [p IH]]; [exists []; reflexivity|].
  simpl. destruct (isspace c).
  - exists (c :: p). simpl. rewrite <- IH. reflexivity.
  - exists []. reflexivity.
Qed.

Lemma rstrip_prefix (s : str) : exists q, s = rstrip s ++ q.
Proof.
  unfold rstrip. destruct (lstrip_suffix (rev s)) as [p E].
  exists (rev p). rewrite <- rev_app_distr, <- E, rev_involutive. reflexivity.
Qed.

Lemma single_spaced_strip (s : str) :
  single_spaced false s = true -> single_spaced false (strip s) = true.
Proof.
  intros H. unfold strip.
  destruct (rstrip_prefix (lstrip s)) as [q E].
  apply (single_spaced_prefix _ q). rewrite <- E.
  apply single_spaced_lstrip. exact H.
Qed.

Lemma strip_idempotent (s : str) : strip (strip s) = strip s.
Proof.
  destruct (strip s) as [|a r] eqn:E; [reflexivity|]. rewrite <- E.
  destruct (rev (strip s)) as [|b r'] eqn:E'.
  - apply (f_equal (@List.length _)) in E'. rewrite length_rev, E in E'. discriminate E'.
  - apply (strip_fixed (strip s) a b r r' E E').
    + exact (strip_first_char s a r E).
    + exact (strip_last_char s b r' E').
Qed.

Lemma filter_all_kept {A} (f : A -> bool) (l : list A) :
  Forall (fun x => f x = true) l -> filter f l = l.
Proof.
  induction 1 as [|x r Hx Hr IH]; simpl; [reflexivity|].
  rewrite Hx, IH. reflexivity.
Qed.

Lemma sub_whitespace_runs_Forall (P : char -> Prop) (s : str) :
  P space -> Forall P s -> forall b, Forall P (sub_whitespace_runs b s).
Proof.
  intros Hsp. induction 1 as [|c r Hc Hr IH]; intros b; simpl; [constructor|].
  destruct (isspace c).
  - destruct b; [apply IH|constructor; [exact Hsp|apply IH]].
  - constructor; [exact Hc|apply IH].
Qed.

Lemma sub_whitespace_runs_spaces (s : str) :
  forall b, Forall (fun c => isspace c = true -> c = space) (sub_whitespace_runs b s).
Proof.
  induction s as [|c r IH]; intros b; simpl; [constructor|].
  destruct (isspace c) eqn:Ec.
  - destruct b; [apply IH|constructor; [reflexivity|apply IH]].
  - constructor; [congruence|apply IH].
Qed.

(** X7: in the output of [clean_text] the only whitespace character is the
    space: tabs, newlines and the other Unicode spaces of the input are
    gone. *)
Theorem clean_text_whitespace_is_space (ua : char -> bool) (text : str) :
  Forall (fun c => isspace c = true -> c = space) (clean_text ua text).
Proof.
  unfold clean_text, sub_special_characters.
  apply strip_Forall.
  assert (H := sub_whitespace_runs_spaces text false).
  rewrite Forall_forall in *. intros c Hc.
  apply filter_In in Hc. apply H. exact (proj1 Hc).
Qed.

Lemma clean_text_fixed_on_allowed (ua : char -> bool) (text : str) :
  Forall (fun c => allowed ua c = true) text ->
  clean_text ua (clean_text ua text) = clean_text ua text
  /\ single_spaced false (clean_text ua text) = true.
Proof.
  intros Hall.
  assert (Hz : Forall (fun c => allowed ua c = true) (sub_whitespace_runs false text))
    by (apply sub_whitespace_runs_Forall; [reflexivity|exact Hall]).
  assert (Ey : clean_text ua text = strip (sub_whitespace_runs false text)).
  { unfold clean_text, sub_special_characters.
    rewrite filter_all_kept by exact Hz. reflexivity. }
  rewrite Ey.
  assert (Hs : single_spaced false (strip (sub_whitespace_runs false text)) = true)
    by apply single_spaced_strip, sub_whitespace_runs_single_spaced.
  split; [|exact Hs].
  unfold clean_text at 1, sub_special_characters.
  rewrite (single_spaced_fixed _ false Hs).
  rewrite filter_all_kept by (apply strip_Forall; exact Hz).
  apply strip_idempotent.
Qed.

(** X8: on a text made of allowed characters only, where the second
    substitution has nothing to remove, [clean_text] is idempotent and its
    output has no two whitespace characters in a row. *)
Theorem clean_text_idempotent_on_allowed (ua : char -> bool) (text : str) :
  Forall (fun c => allowed ua c = true) text ->
  clean_text ua (clean_text ua text) = clean_text ua text
  /\ single_spaced false (clean_text ua text) = true.
Proof. apply clean_text_fixed_on_allowed. Qed.

Lemma clean_text_idempotent_on_allowed_witness :
  Forall (fun c => allowed (fun _ => false) c = true) (lit " Be  still, and know. ")
  /\ clean_text (fun _ => false) (lit " Be  still, and know. ") = lit "Be still, and know."
  /\ clean_text (fun _ => false)
                (clean_text (fun _ => false) (lit " Be  still, and know. "))
     = clean_text (fun _ => false) (lit " Be  still, and know. ").
Proof.
  assert (H : Forall (fun c => allowed (fun _ => false) c = true)
                     (lit " Be  still, and know. "))
    by (apply Forall_forall; intros c Hc; simpl in Hc;
        repeat (destruct Hc as [<-|Hc]; [reflexivity|]); destruct Hc).
  split; [exact H|]. split; [reflexivity|].
  exact (proj1 (clean_text_idempotent_on_allowed (fun _ => false)
                  (lit " Be  still, and know. ") H)).
Defined.

(** X9: a second pass of [clean_text] always reaches a fixed point, free of
    whitespace runs: a third pass changes nothing. *)
Theorem clean_text_twice_is_fixed (ua : char -> bool) (text : str) :
  clean_text ua (clean_text ua (clean_text ua text))
  = clean_text ua (clean_text ua text)
  /\ single_spaced false (clean_text ua (clean_text ua text)) = true.
Proof.
  apply clean_text_fixed_on_allowed, clean_text_allowed.
Qed.

(** ** More on the ingestion run *)

Lemma lit_injective (a b : string) : lit a = lit b -> a = b.
Proof.
  unfold lit. intros E.
  rewrite <- (string_of_list_ascii_of_string a), <- (string_of_list_ascii_of_string b).
  f_equal.
  revert E. generalize (list_ascii_of_string a) (list_ascii_of_string b).
  induction l as [|x r IH]; intros [|y r'] E; try discriminate; [reflexivity|].
  simpl in E. injection E as Exy Er.
  f_equal; [|exact (IH r' Er)].
  rewrite <- (ascii_N_embedding x), <- (ascii_N_embedding y), Exy. reflexivity.
Qed.

Lemma to_int_not_nil (z : Z) :
  Z.to_int z <> Decimal.Pos Decimal.Nil /\ Z.to_int z <> Decimal.Neg Decimal.Nil.
Proof.
  split; intros E.
  - assert (Hz : z = Z.of_int (Decimal.Pos Decimal.Nil))
      by (rewrite <- E, DecimalZ.of_to; reflexivity).
    subst z. discriminate E.
  - assert (Hz : z = Z.of_int (Decimal.Neg Decimal.Nil))
      by (rewrite <- E, DecimalZ.of_to; reflexivity).
    subst z. discriminate E.
Qed.

(** Distinct integers are written differently. *)
Lemma of_int_injective (a b : Z) : of_int a = of_int b -> a = b.
Proof.
  unfold of_int. intros E. apply lit_injective in E.
  apply DecimalZ.to_int_inj.
  assert (Ha := NilZero.isi (Z.to_int a) (proj1 (to_int_not_nil a)) (proj2 (to_int_not_nil a))).
  assert (Hb := NilZero.isi (Z.to_int b) (proj1 (to_int_not_nil b)) (proj2 (to_int_not_nil b))).
  rewrite E in Ha. rewrite Ha in Hb. injection Hb as Hb. exact Hb.
Qed.

Section MoreIngestionFacts.

Variables embedding collection : Type.
Variable w : World embedding collection.
Variable folder : str.

Lemma read_pages_readable (texts : list str) (rest : list (result str)) :
  forall text,
    read_pages text (map Ok texts ++ rest)
    = read_pages (text ++ List.concat (map (fun t => t ++ newline) texts)) rest.
Proof.
  induction texts as [|t r IH]; intros text; simpl.
  - rewrite app_nil_r. reflexivity.
  - rewrite IH, <- !app_assoc. reflexivity.
Qed.

(** X10: [extract_text_from_pdf] returns the text of the pages in order, each
    followed by a newline.  When the file cannot be opened, or when a page
    fails, it prints one error line and returns what the pages before the
    failure gave (nothing for a file that cannot be opened); it raises
    nothing. *)
Theorem extract_text_reads_until_failure (pdf_path : str) (texts : list str)
    (s : state collection) :
  (read_pdf w pdf_path = Ok (map Ok texts) ->
   extract_text_from_pdf w pdf_path s
   = (s, Ok (List.concat (map (fun t => t ++ newline) texts))))
  /\ (forall e rest,
        read_pdf w pdf_path = Ok (map Ok texts ++ Raise e :: rest) ->
        is_Exception e = true ->
        extract_text_from_pdf w pdf_path s
        = ({| stdout := stdout s
                        ++ [lit "Error reading " ++ pdf_path ++ lit ": " ++ exn_str e];
              db := db s;
              summary_file := summary_file s |},
           Ok (List.concat (map (fun t => t ++ newline) texts))))
  /\ (forall e,
        read_pdf w pdf_path = Raise e ->
        is_Exception e = true ->
        extract_text_from_pdf w pdf_path s
        = ({| stdout := stdout s
                        ++ [lit "Error reading " ++ pdf_path ++ lit ": " ++ exn_str e];
              db := db s;
              summary_file := summary_file s |},
           Ok [])).
Proof.
  unfold extract_text_from_pdf, read_document, extract_failed.
  repeat split.
  - intros ->. rewrite <- (app_nil_r (map Ok texts)), read_pages_readable.
    simpl. destruct s; reflexivity.
  - intros e rest -> He. rewrite read_pages_readable. simpl. rewrite He. reflexivity.
  - intros e -> He. rewrite He. reflexivity.
Qed.

Lemma add_chunks_lists (f : str) (chunks : list str) :
  forall i acc,
    let acc' := fold_left (add_chunk f) (enumerate_from i chunks) acc in
    all_chunks acc' = all_chunks acc ++ chunks
    /\ all_metadatas acc'
       = all_metadatas acc
         ++ map (fun k => {| book := book_name_of f;
                             chunk_id := (i + Z.of_nat k)%Z;
                             source := f |})
                (seq 0 (List.length chunks))
    /\ all_ids acc'
       = all_ids acc
         ++ map (fun k => book_name_of f ++ lit "_chunk_" ++ of_int (i + Z.of_nat k))
                (seq 0 (List.length chunks)).
Proof.
  induction chunks as [|c r IH]; intros i acc; cbn zeta in *.
  - simpl. rewrite !app_nil_r. repeat split.
  - cbn [enumerate_from fold_left].
    destruct (IH (i + 1)%Z (add_chunk f acc (i, c))) as (H1 & H2 & H3).
    rewrite H1, H2, H3. cbn [add_chunk all_chunks all_metadatas all_ids List.length seq map].
    rewrite <- !app_assoc. cbn [app].
    rewrite <- seq_shift, !map_map.
    cbn [Z.of_nat]. rewrite Z.add_0_r.
    split; [reflexivity|]. split.
    + do 2 f_equal. apply map_ext. intros k. f_equal. lia.
    + do 2 f_equal. apply map_ext. intros k. do 3 f_equal. lia.
Qed.

(** What [process_book] does to the pending lists: nothing, or the chunks
    of one document numbered from 0. *)
Lemma process_book_pending (acc : pending) (f : str) (s s' : state collection)
    (acc' : pending) :
  process_book w folder acc f s = (s', Ok acc') ->
  db s' = db s
  /\ exists chunks,
       all_chunks acc' = all_chunks acc ++ chunks
       /\ all_metadatas acc'
          = all_metadatas acc
            ++ map (fun k => {| book := book_name_of f;
                                chunk_id := Z.of_nat k;
                                source := f |})
                   (seq 0 (List.length chunks))
       /\ all_ids acc'
          = all_ids acc
            ++ map (fun k => book_name_of f ++ lit "_chunk_" ++ of_int (Z.of_nat k))
                   (seq 0 (List.length chunks)).
Proof.
  unfold process_book, extract_text_from_pdf, extract_failed.
  unfold bind at 1. cbn [print].
  unfold bind at 1.
  destruct (read_document w (path_join folder f)) as [text [e|]].
  - destruct (is_Exception e).
    + unfold bind at 1. cbn [print ret stdout db summary_file].
      destruct (strip text).
      * unfold bind, print, ret. cbn [stdout db summary_file].
        intros E. injection E as <- <-. split; [reflexivity|].
        exists []. simpl. rewrite !app_nil_r. repeat split.
      * unfold bind at 1. unfold lift at 1.
        destruct (chunk_text (clean_text (uni_alnum w) text) default_chunk_size
                             default_overlap) as [chunks|e']; [|discriminate].
        unfold bind, print, ret. cbn [stdout db summary_file].
        intros E. injection E as <- <-. split; [reflexivity|].
        exists chunks. exact (add_chunks_lists f chunks 0 acc).
    + unfold raise. discriminate.
  - unfold ret at 1.
    destruct (strip text).
    + unfold bind, print, ret. cbn [stdout db summary_file].
      intros E. injection E as <- <-. split; [reflexivity|].
      exists []. simpl. rewrite !app_nil_r. repeat split.
    + unfold bind at 1. unfold lift at 1.
      destruct (chunk_text (clean_text (uni_alnum w) text) default_chunk_size
                           default_overlap) as [chunks|e']; [|discriminate].
      unfold bind, print, ret. cbn [stdout db summary_file].
      intros E. injection E as <- <-. split; [reflexivity|].
      exists chunks. exact (add_chunks_lists f chunks 0 acc).
Qed.

(** X11: the ids that one document adds are those of its chunks numbered
    0, 1, 2, ... without gap, [{book}_chunk_{i}], and they are pairwise
    distinct. *)
Theorem process_book_ids_distinct (acc : pending) (f : str) (s s' : state collection)
    (acc' : pending) :
  process_book w folder acc f s = (s', Ok acc') ->
  exists n,
    len (all_chunks acc') = (len (all_chunks acc) + Z.of_nat n)%Z
    /\ all_ids acc'
       = all_ids acc
         ++ map (fun k => book_name_of f ++ lit "_chunk_" ++ of_int (Z.of_nat k)) (seq 0 n)
    /\ NoDup (map (fun k => book_name_of f ++ lit "_chunk_" ++ of_int (Z.of_nat k))
                  (seq 0 n)).
Proof.
  intros H. destruct (process_book_pending acc f s s' acc' H) as (_ & chunks & Hc & _ & Hi).
  exists (List.length chunks). split; [|split; [exact Hi|]].
  - rewrite Hc. unfold len. rewrite length_app. lia.
  - apply Injective_map_NoDup; [|apply seq_NoDup].
    intros a b E.
    apply app_inv_head in E. apply app_inv_head in E.
    apply of_int_injective in E. lia.
Qed.

Lemma aligned_more_files (files : list str) (f : str) (acc : pending) :
  aligned files acc -> aligned (files ++ [f]) acc.
Proof.
  intros (H1 & H2 & H3). split; [exact H1|]. split; [exact H2|].
  revert H3. apply Forall_impl. intros m [Hin Hb]. split; [|exact Hb].
  apply in_or_app. left. exact Hin.
Qed.

Lemma process_book_aligned (files : list str) (acc : pending) (f : str)
    (s s' : state collection) (acc' : pending) :
  aligned files acc ->
  process_book w folder acc f s = (s', Ok acc') ->
  aligned (files ++ [f]) acc'.
Proof.
  intros Ha H. apply (aligned_more_files files f) in Ha.
  destruct Ha as (H1 & H2 & H3).
  destruct (process_book_pending acc f s s' acc' H) as (_ & chunks & Hc & Hm & Hi).
  unfold aligned. rewrite Hc, Hm, Hi. split; [|split].
  - rewrite !length_app, length_map, length_seq. lia.
  - rewrite map_app, map_map, H2. reflexivity.
  - apply Forall_app. split; [exact H3|].
    apply Forall_forall. intros m Hm'. apply in_map_iff in Hm'.
    destruct Hm' as (k & <- & _). cbn [source book]. split; [|reflexivity].
    apply in_or_app. right. left. reflexivity.
Qed.

Lemma for_each_process_book_aligned (files : list str) :
  forall seen acc s s' acc',
    aligned seen acc ->
    for_each (process_book w folder) files acc s = (s', Ok acc') ->
    aligned (seen ++ files) acc' /\ db s' = db s.
Proof.
  induction files as [|f rest IH]; intros seen acc s s' acc' Ha; simpl.
  - unfold ret. intros E. injection E as <- <-. rewrite app_nil_r. split; [exact Ha|reflexivity].
  - unfold bind.
    destruct (process_book w folder acc f s) as [s1 [acc1|e]] eqn:E1; [|discriminate].
    intros E.
    destruct (IH (seen ++ [f]) acc1 s1 s' acc'
                 (process_book_aligned seen acc f s s1 acc1 Ha E1) E) as [Hal Hdb].
    rewrite <- app_assoc in Hal. split; [exact Hal|].
    rewrite Hdb. exact (proj1 (process_book_pending acc f s s1 acc1 E1)).
Qed.

(** X12: after the loop over the documents the three lists that the batches
    slice describe the same chunks: they have one length, the id at each
    place is [{book}_chunk_{chunk_id}] of the metadata at that place, and
    each metadata names one of the files with its book name.  The loop
    does not touch the collection. *)
Theorem pending_lists_stay_aligned (files : list str) (s s' : state collection)
    (acc : pending) :
  for_each (process_book w folder) files no_pending s = (s', Ok acc) ->
  len (all_metadatas acc) = len (all_chunks acc)
  /\ len (all_ids acc) = len (all_chunks acc)
  /\ all_ids acc = map id_of_metadata (all_metadatas acc)
  /\ Forall (fun m => In (source m) files /\ book m = book_name_of (source m))
            (all_metadatas acc)
  /\ db s' = db s.
Proof.
  intros H.
  assert (H0 : aligned [] no_pending) by (repeat split; constructor).
  destruct (for_each_process_book_aligned files [] no_pending s s' acc H0 H)
    as ((H1 & H2 & H3) & Hdb).
  unfold len. rewrite H2, length_map, H1. repeat split; [exact H3|exact Hdb].
Qed.

End MoreIngestionFacts.

Lemma extract_text_reads_until_failure_witness :
  extract_text_from_pdf (sample_world []) (lit "books/bad.pdf") (initial [])
  = ({| stdout := [lit "Error reading books/bad.pdf: corrupt page"];
        db := [];
        summary_file := None |},
     Ok (text_of_words 30 ++ newline)).
Proof.
  destruct (extract_text_reads_until_failure unit sample_store (sample_world [])
              (lit "books/bad.pdf") [text_of_words 30] (initial []))
    as (_ & Hpage & _).
  rewrite (Hpage (LibraryError (lit "corrupt page")) [] eq_refl eq_refl).
  vm_compute. reflexivity.
Defined.

Lemma process_book_ids_distinct_witness :
  exists s' acc',
    process_book (sample_world []) (lit "books") no_pending (lit "good.pdf") (initial [])
    = (s', Ok acc')
    /\ all_ids acc' = [lit "good_chunk_0"].
Proof.
  destruct (process_book (sample_world []) (lit "books") no_pending (lit "good.pdf")
              (initial [])) as [s' [acc'|e]] eqn:E; [|vm_compute in E; discriminate E].
  destruct (process_book_ids_distinct unit sample_store (sample_world []) (lit "books")
              no_pending (lit "good.pdf") (initial []) s' acc' E) as (n & _ & _ & _).
  exists s', acc'. split; [reflexivity|].
  vm_compute in E. injection E as _ <-. reflexivity.
Defined.

Lemma pending_lists_stay_aligned_witness :
  exists s' acc,
    for_each (process_book (sample_world []) (lit "books"))
             [lit "good.pdf"; lit "bad.pdf"; lit "empty.pdf"] no_pending (initial [])
    = (s', Ok acc)
    /\ len (all_chunks acc) = 2%Z
    /\ all_ids acc = map id_of_metadata (all_metadatas acc).
Proof.
  destruct (for_each (process_book (sample_world []) (lit "books"))
              [lit "good.pdf"; lit "bad.pdf"; lit "empty.pdf"] no_pending (initial []))
    as [s' [acc|e]] eqn:E; [|vm_compute in E; discriminate E].
  destruct (pending_lists_stay_aligned unit sample_store (sample_world []) (lit "books")
              [lit "good.pdf"; lit "bad.pdf"; lit "empty.pdf"] (initial []) s' acc E)
    as (_ & _ & Hids & _).
  exists s', acc. split; [reflexivity|]. split; [|exact Hids].
  vm_compute in E. injection E as _ <-. reflexivity.
Defined.

Section RunFacts.

Variables embedding collection : Type.
Variable w : World embedding collection.
Variable folder : str.

(** X14: when the folder lists no name ending in [.pdf], [process_all_books]
    prints its two lines and returns: the collection is not touched, no
    summary is written and nothing is raised. *)
Theorem process_all_books_without_pdf (names : list str) (s : state collection) :
  listdir w folder = Ok names ->
  filter (endswith (lit ".pdf")) names = [] ->
  process_all_books w folder s
  = ({| stdout := stdout s ++ [lit "Starting to process books..."]
                  ++ [lit "No PDF files found in the Books folder!"];
        db := db s;
        summary_file := summary_file s |},
     Ok tt).
Proof.
  intros Hn Hf. unfold process_all_books.
  unfold bind at 1. cbn [print]. unfold bind at 1. unfold lift at 1.
  rewrite Hn, Hf. unfold print. cbn [stdout db summary_file].
  rewrite <- app_assoc. reflexivity.
Qed.

(** X15: a batch that raises, in the encoder or in [collection.add], ends
    the batch loop with its exception: the batches after it are not
    attempted and its progress line is not printed.  When it is the encoder
    that raises, [collection.add] is not called for that batch, and the
    collection stays as the batches before it left it. *)
Theorem failed_batch_stops_the_loop (acc : pending) (done rest : list Z) (i : Z)
    (s s1 s2 : state collection) (e : exn) :
  for_each (store_batch w acc) done tt s = (s1, Ok tt) ->
  store_batch w acc tt i s1 = (s2, Raise e) ->
  for_each (store_batch w acc) (done ++ i :: rest) tt s = (s2, Raise e)
  /\ stdout s2 = stdout s1
  /\ (forall e',
        encode w (slice (all_chunks acc) i (i + batch_size)) = Raise e' ->
        e = e' /\ db s2 = db s1).
Proof.
  intros Hdone Hfail. split; [|split].
  - rewrite for_each_app. unfold bind at 1. rewrite Hdone.
    cbn [for_each]. unfold bind. rewrite Hfail. reflexivity.
  - revert Hfail. unfold store_batch. unfold bind at 1. unfold lift at 1.
    destruct (encode w (slice (all_chunks acc) i (i + batch_size))) as [embs|e1].
    + unfold bind at 1. unfold get_db at 1. unfold bind at 1. unfold lift at 1.
      destruct (collection_add w (db s1) (slice (all_chunks acc) i (i + batch_size)) embs
                  (slice (all_metadatas acc) i (i + batch_size))
                  (slice (all_ids acc) i (i + batch_size))) as [c'|e2].
      * unfold bind, set_db, print. discriminate.
      * intros E. injection E as <- _. reflexivity.
    + intros E. injection E as <- _. reflexivity.
  - intros e' He'. revert Hfail. unfold store_batch. unfold bind at 1. unfold lift at 1.
    rewrite He'. intros E. injection E as <- <-. split; reflexivity.
Qed.

(** X16: a run of [process_all_books] that ends with an exception leaves the
    summary file as it was. *)
Theorem raising_run_writes_no_summary (s s' : state collection) (e : exn) :
  process_all_books w folder s = (s', Raise e) ->
  summary_file s' = summary_file s.
Proof.
  unfold process_all_books.
  unfold bind at 1. cbn [print]. unfold bind at 1. unfold lift at 1.
  set (s0 := {| stdout := _; db := db s; summary_file := summary_file s |}).
  destruct (listdir w folder) as [names|e0];
    [|intros E; injection E as <- _; reflexivity].
  destruct (filter (endswith (lit ".pdf")) names) as [|f0 fs]; [discriminate|].
  unfold bind at 1.
  assert (H1 := for_each_summary_file collection
                  (process_book w folder) (f0 :: fs)
                  (process_book_summary_file embedding collection w folder)
                  no_pending s0).
  destruct (for_each (process_book w folder) (f0 :: fs) no_pending s0) as [s1 [acc|e1]];
    cbn [fst] in H1; [|intros E; injection E as <- _; exact H1].
  unfold bind at 1. cbn [print]. unfold bind at 1. unfold lift at 1.
  destruct (range 0 (len (all_chunks acc)) batch_size) as [idxs|e2];
    [|intros E; injection E as <- _; exact H1].
  set (s3 := {| stdout := _; db := db s1; summary_file := summary_file s1 |}).
  unfold bind at 1.
  assert (H3 := for_each_summary_file collection
                  (store_batch w acc) idxs
                  (store_batch_summary_file embedding collection w acc) tt s3).
  destruct (for_each (store_batch w acc) idxs tt s3) as [s4 [u|e3]]; cbn [fst] in H3.
  - unfold bind, print, write_summary. discriminate.
  - intros E. injection E as <- _. rewrite H3. exact H1.
Qed.

Lemma blank_books_are_skipped (files : list str) :
  (forall f, In f files ->
     exists text oe,
       read_document w (path_join folder f) = (text, oe)
       /\ strip text = []
       /\ (forall e, oe = Some e -> is_Exception e = true)) ->
  forall acc s,
    exists s',
      for_each (process_book w folder) files acc s = (s', Ok acc)
      /\ db s' = db s /\ summary_file s' = summary_file s.
Proof.
  induction files as [|f rest IH]; intros Hblank acc s.
  - exists s. repeat split.
  - destruct (Hblank f (or_introl eq_refl)) as (text & oe & Hr & Hs & He).
    assert (Hstep : exists s1, process_book w folder acc f s = (s1, Ok acc)
                               /\ db s1 = db s /\ summary_file s1 = summary_file s).
    { unfold process_book, extract_text_from_pdf, extract_failed. rewrite Hr.
      destruct oe as [e|].
      - rewrite (He e eq_refl). eexists. split.
        + unfold bind, print, ret. cbn [stdout db summary_file]. rewrite Hs. reflexivity.
        + split; reflexivity.
      - eexists. split.
        + unfold bind, print, ret. cbn [stdout db summary_file]. rewrite Hs. reflexivity.
        + split; reflexivity. }
    destruct Hstep as (s1 & E1 & Hd1 & Hf1).
    destruct (IH (fun g Hg => Hblank g (or_intror Hg)) acc s1) as (s' & E' & Hd' & Hf').
    exists s'. split.
    + cbn [for_each]. unfold bind. rewrite E1. exact E'.
    + split; congruence.
Qed.

(** X17: when the text read from every [.pdf] file is empty or blank
    (unreadable files included), the run completes without calling the
    encoder or the collection: the collection is unchanged and the summary
    counts the files with zero chunks. *)
Theorem blank_books_leave_collection (names : list str) (s : state collection) :
  listdir w folder = Ok names ->
  filter (endswith (lit ".pdf")) names <> [] ->
  (forall f, In f (filter (endswith (lit ".pdf")) names) ->
     exists text oe,
       read_document w (path_join folder f) = (text, oe)
       /\ strip text = []
       /\ (forall e, oe = Some e -> is_Exception e = true)) ->
  exists s',
    process_all_books w folder s = (s', Ok tt)
    /\ db s' = db s
    /\ summary_file s'
       = Some {| total_books := len (filter (endswith (lit ".pdf")) names);
                 total_chunks := 0;
                 books_processed :=
                   map book_name_of (filter (endswith (lit ".pdf")) names) |}.
Proof.
  intros Hn Hne Hblank. unfold process_all_books.
  unfold bind at 1. cbn [print]. unfold bind at 1. unfold lift at 1. rewrite Hn.
  set (s0 := {| stdout := _; db := db s; summary_file := summary_file s |}).
  destruct (filter (endswith (lit ".pdf")) names) as [|f0 fs] eqn:Ef; [congruence|].
  destruct (blank_books_are_skipped (f0 :: fs) Hblank no_pending s0)
    as (s1 & E1 & Hd1 & Hf1).
  unfold bind at 1. rewrite E1.
  unfold bind at 1. cbn [print]. unfold bind at 1. unfold lift at 1.
  change (range 0 (len (all_chunks no_pending)) batch_size) with (Ok (@nil Z)).
  cbn [for_each]. unfold bind, ret, print, write_summary. cbn [stdout db summary_file].
  eexists. split; [reflexivity|]. cbn [db summary_file].
  split; [exact Hd1|reflexivity].
Qed.

(** X18: [main] takes the answer to its prompt, trimmed, as the folder, and
    the default folder when the answer is blank; when that folder does not
    exist it prints two error lines and returns without building the
    processor or reading any file. *)
Theorem main_with_missing_folder (mw : MainWorld) (line : str) (s : state collection) :
  input mw = Ok line ->
  path_exists mw (match strip line with
                  | [] => default_books_folder
                  | _ :: _ => strip line
                  end) = false ->
  main w mw s
  = ({| stdout :=
          stdout s
          ++ [lit "Enter the full path to your Books folder (or press Enter for default): "]
          ++ [lit "Error: Books folder not found at "
              ++ match strip line with
                 | [] => default_books_folder
                 | _ :: _ => strip line
                 end]
          ++ [lit "Please make sure the path is correct."];
        db := db s;
        summary_file := summary_file s |},
     Ok tt).
Proof.
  intros Hi Hp. unfold main.
  unfold bind at 1. cbn [print]. unfold bind at 1. unfold lift at 1. rewrite Hi.
  rewrite Hp. cbn [negb]. unfold bind, print. cbn [stdout db summary_file].
  rewrite <- !app_assoc. reflexivity.
Qed.

(** When the folder exists and the processor is built, [main] is the
    prompt followed by [process_all_books] on that folder: a blank answer
    runs it on the default folder. *)
Theorem main_runs_process_all_books (mw : MainWorld) (line : str) (s : state collection) :
  input mw = Ok line ->
  strip line = [] ->
  path_exists mw default_books_folder = true ->
  book_rag_processor mw default_books_folder = Ok tt ->
  main w mw s
  = process_all_books w default_books_folder
      {| stdout :=
           stdout s
           ++ [lit "Enter the full path to your Books folder (or press Enter for default): "];
         db := db s;
         summary_file := summary_file s |}.
Proof.
  intros Hi Hs Hp Hb. unfold main.
  unfold bind at 1. cbn [print]. unfold bind at 1. unfold lift at 1. rewrite Hi, Hs.
  rewrite Hp. cbn [negb]. unfold bind at 1. unfold lift at 1. rewrite Hb.
  reflexivity.
Qed.

End RunFacts.

Lemma process_all_books_without_pdf_witness :
  process_all_books (sample_world [lit "notes.txt"]) (lit "books") (initial [])
  = ({| stdout := [lit "Starting to process books..."]
                  ++ [lit "No PDF files found in the Books folder!"];
        db := [];
        summary_file := None |},
     Ok tt).
Proof.
  exact (process_all_books_without_pdf unit sample_store (sample_world [lit "notes.txt"])
           (lit "books") [lit "notes.txt"] (initial []) eq_refl eq_refl).
Defined.

Lemma failed_batch_stops_the_loop_witness :
  exists s1,
    for_each (store_batch (failing_encoder_world []) sample_pending) [0%Z] tt (initial [])
    = (s1, Ok tt)
    /\ List.length (db s1) = 100%nat
    /\ for_each (store_batch (failing_encoder_world []) sample_pending)
                [0%Z; 100%Z] tt (initial [])
       = (s1, Raise (LibraryError (lit "out of memory"))).
Proof.
  destruct (for_each (store_batch (failing_encoder_world []) sample_pending) [0%Z] tt
              (initial [])) as [s1 [[]|e]] eqn:E; [|vm_compute in E; discriminate E].
  exists s1. split; [reflexivity|]. split.
  - vm_compute in E. injection E as <-. reflexivity.
  - assert (Hfail : store_batch (failing_encoder_world []) sample_pending tt 100 s1
                    = (s1, Raise (LibraryError (lit "out of memory"))))
      by reflexivity.
    exact (proj1 (failed_batch_stops_the_loop unit sample_store (failing_encoder_world [])
                    sample_pending [0%Z] [] 100 (initial []) s1 s1
                    (LibraryError (lit "out of memory")) E Hfail)).
Defined.

Lemma raising_run_writes_no_summary_witness :
  exists s',
    process_all_books (failing_encoder_world [lit "good.pdf"]) (lit "books") (initial [])
    = (s', Raise (LibraryError (lit "out of memory")))
    /\ summary_file s' = None.
Proof.
  destruct (process_all_books (failing_encoder_world [lit "good.pdf"]) (lit "books")
              (initial [])) as [s' r] eqn:E.
  assert (Er : r = Raise (LibraryError (lit "out of memory")))
    by (vm_compute in E; injection E as _ <-; reflexivity).
  subst r. exists s'. split; [reflexivity|].
  exact (raising_run_writes_no_summary unit sample_store
           (failing_encoder_world [lit "good.pdf"]) (lit "books") (initial []) s'
           (LibraryError (lit "out of memory")) E).
Defined.

Lemma blank_books_leave_collection_witness :
  exists s',
    process_all_books (sample_world [lit "empty.pdf"; lit "missing.pdf"]) (lit "books")
                      (initial [])
    = (s', Ok tt)
    /\ db s' = []
    /\ summary_file s'
       = Some {| total_books := 2; total_chunks := 0;
                 books_processed := [lit "empty"; lit "missing"] |}.
Proof.
  apply (blank_books_leave_collection unit sample_store
           (sample_world [lit "empty.pdf"; lit "missing.pdf"]) (lit "books")
           [lit "empty.pdf"; lit "missing.pdf"] (initial []) eq_refl).
  - discriminate.
  - intros f [<-|[<-|[]]].
    + exists (lit "  " ++ newline), None. repeat split. discriminate.
    + exists [], (Some (LibraryError (lit "No such file"))). repeat split.
      intros e E. injection E as <-. reflexivity.
Defined.

Lemma main_with_missing_folder_witness :
  main (sample_world []) (sample_main_world (lit "  ") false) (initial [])
  = ({| stdout :=
          [lit "Enter the full path to your Books folder (or press Enter for default): ";
           lit "Error: Books folder not found at ../BookRAG/Books";
           lit "Please make sure the path is correct."];
        db := [];
        summary_file := None |},
     Ok tt).
Proof.
  exact (main_with_missing_folder unit sample_store (sample_world [])
           (sample_main_world (lit "  ") false) (lit "  ") (initial []) eq_refl eq_refl).
Defined.

Lemma main_runs_process_all_books_witness :
  main (sample_world [lit "notes.txt"]) (sample_main_world [] true) (initial [])
  = process_all_books (sample_world [lit "notes.txt"]) default_books_folder
      {| stdout :=
           [lit "Enter the full path to your Books folder (or press Enter for default): "];
         db := [];
         summary_file := None |}.
Proof.
  exact (main_runs_process_all_books unit sample_store (sample_world [lit "notes.txt"])
           (sample_main_world [] true) [] (initial []) eq_refl eq_refl eq_refl eq_refl).
Defined.

(** ** From the pending chunks to the collection *)

Section StoreFacts.

Variables embedding collection : Type.
Variable w : World embedding collection.
Variable folder : str.

(** A batch loop that completes has made the calls of [stored_in_batches]. *)
Lemma store_batches_stored (acc : pending) (idxs : list Z) :
  forall (s s' : state collection) (u : unit),
    for_each (store_batch w acc) idxs tt s = (s', Ok u) ->
    stored_in_batches w acc idxs (db s) (db s').
Proof.
  induction idxs as [|i rest IH]; intros s s' u; cbn [for_each].
  - unfold ret. intros E. injection E as <- _. constructor.
  - unfold bind at 1. unfold store_batch at 1.
    unfold bind at 1. unfold lift at 1.
    destruct (encode w (slice (all_chunks acc) i (i + batch_size))) as [embs|e1] eqn:Ee;
      [|discriminate].
    unfold bind at 1. unfold get_db at 1. unfold bind at 1. unfold lift at 1.
    destruct (collection_add w (db s) (slice (all_chunks acc) i (i + batch_size)) embs
                (slice (all_metadatas acc) i (i + batch_size))
                (slice (all_ids acc) i (i + batch_size))) as [c'|e2] eqn:Ea;
      [|discriminate].
    unfold bind at 1. unfold set_db at 1. unfold print at 1.
    cbn [stdout db summary_file].
    destruct u. intros E.
    apply (stored_batch w acc i rest (db s) c' (db s') embs Ee Ea).
    exact (IH _ s' tt E).
Qed.

(** X13: when the batch loop of [process_all_books] completes, the encoder
    and [collection.add] have been called once for each index of
    [range(0, len(all_chunks), 100)], in order, on the slices
    [i:i + 100] of the chunks, the metadata and the ids, each call from the
    collection the one before left.  These slices partition the three
    lists, and when the lists have one length each call received between
    one and a hundred chunks with as many metadata and ids. *)
Theorem batches_reach_the_collection (acc : pending) (idxs : list Z)
    (s s' : state collection) (u : unit) :
  range 0 (len (all_chunks acc)) batch_size = Ok idxs ->
  for_each (store_batch w acc) idxs tt s = (s', Ok u) ->
  List.length (all_metadatas acc) = List.length (all_chunks acc) ->
  List.length (all_ids acc) = List.length (all_chunks acc) ->
  stored_in_batches w acc idxs (db s) (db s')
  /\ List.concat (map (fun i => slice (all_chunks acc) i (i + batch_size)) idxs)
     = all_chunks acc
  /\ List.concat (map (fun i => slice (all_metadatas acc) i (i + batch_size)) idxs)
     = all_metadatas acc
  /\ List.concat (map (fun i => slice (all_ids acc) i (i + batch_size)) idxs)
     = all_ids acc
  /\ Forall (fun i =>
               len (slice (all_metadatas acc) i (i + batch_size))
               = len (slice (all_chunks acc) i (i + batch_size))
               /\ len (slice (all_ids acc) i (i + batch_size))
                  = len (slice (all_chunks acc) i (i + batch_size))
               /\ (1 <= len (slice (all_chunks acc) i (i + batch_size)) <= 100)%Z)
            idxs.
Proof.
  intros Hr Hloop Hm Hi.
  assert (Lm : len (all_metadatas acc) = len (all_chunks acc))
    by (unfold len; rewrite Hm; reflexivity).
  assert (Li : len (all_ids acc) = len (all_chunks acc))
    by (unfold len; rewrite Hi; reflexivity).
  destruct (batches_partition (all_chunks acc)) as (i1 & R1 & C1 & F1).
  destruct (batches_partition (all_metadatas acc)) as (i2 & R2 & C2 & F2).
  destruct (batches_partition (all_ids acc)) as (i3 & R3 & C3 & F3).
  rewrite Lm in R2. rewrite Li in R3.
  rewrite Hr in R1, R2, R3.
  injection R1 as <-. injection R2 as <-. injection R3 as <-.
  split; [exact (store_batches_stored acc idxs s s' u Hloop)|].
  split; [exact C1|]. split; [exact C2|]. split; [exact C3|].
  rewrite Forall_forall in *. intros i Hin.
  destruct (F1 i Hin) as [E1 B1]. destruct (F2 i Hin) as [E2 _].
  destruct (F3 i Hin) as [E3 _].
  rewrite E1, E2, E3, Lm, Li. repeat split; lia.
Qed.

(** The pending chunks only grow along the loop over the documents. *)
Lemma for_each_process_book_grows (files : list str) :
  forall acc (s s' : state collection) acc',
    for_each (process_book w folder) files acc s = (s', Ok acc') ->
    db s' = db s /\ exists more, all_chunks acc' = all_chunks acc ++ more.
Proof.
  induction files as [|f rest IH]; intros acc s s' acc'; cbn [for_each].
  - unfold ret. intros E. injection E as <- <-. split; [reflexivity|].
    exists []. rewrite app_nil_r. reflexivity.
  - unfold bind.
    destruct (process_book w folder acc f s) as [s1 [acc1|e]] eqn:E1; [|discriminate].
    intros E. destruct (IH acc1 s1 s' acc' E) as (Hd & more & Hm).
    destruct (process_book_pending embedding collection w folder acc f s s1 acc1 E1)
      as (Hd1 & chunks & Hc & _).
    split; [congruence|].
    exists (chunks ++ more). rewrite Hm, Hc, <- app_assoc. reflexivity.
Qed.

(** The steps of a run of [process_all_books] that completed on a folder
    with [.pdf] files. *)
Lemma completed_run_steps (names : list str) (s s' : state collection) :
  listdir w folder = Ok names ->
  filter (endswith (lit ".pdf")) names <> [] ->
  process_all_books w folder s = (s', Ok tt) ->
  exists s0 s1 acc idxs s2 s3,
    db s0 = db s
    /\ for_each (process_book w folder) (filter (endswith (lit ".pdf")) names)
                no_pending s0 = (s1, Ok acc)
    /\ range 0 (len (all_chunks acc)) batch_size = Ok idxs
    /\ db s2 = db s1
    /\ for_each (store_batch w acc) idxs tt s2 = (s3, Ok tt)
    /\ db s' = db s3.
Proof.
  intros Hn Hne. unfold process_all_books.
  unfold bind at 1. cbn [print]. unfold bind at 1. unfold lift at 1. rewrite Hn.
  set (s0 := {| stdout := _; db := db s; summary_file := summary_file s |}).
  destruct (filter (endswith (lit ".pdf")) names) as [|f0 fs] eqn:Ef; [congruence|].
  unfold bind at 1.
  destruct (for_each (process_book w folder) (f0 :: fs) no_pending s0)
    as [s1 [acc|e1]] eqn:E1; [|discriminate].
  unfold bind at 1. cbn [print]. unfold bind at 1. unfold lift at 1.
  destruct (range 0 (len (all_chunks acc)) batch_size) as [idxs|e2] eqn:Er;
    [|discriminate].
  set (s2 := {| stdout := _; db := db s1; summary_file := summary_file s1 |}).
  unfold bind at 1.
  destruct (for_each (store_batch w acc) idxs tt s2) as [s3 [[]|e3]] eqn:E3;
    [|discriminate].
  unfold bind, print, write_summary. cbn [stdout db summary_file].
  intros E. injection E as <-.
  exists s0, s1, acc, idxs, s2, s3. cbn [db].
  repeat split; try reflexivity; assumption.
Qed.

(** C5, amended: when the extraction of a document raises an exception,
    [process_book] catches it and prints the error line, leaves the
    collection and the summary file alone, and the loop goes on with the
    remaining documents.  The document is skipped, adding no chunk, when
    the text read before the failure is empty or blank; otherwise the
    chunks of that text are appended to the pending chunks, and when the
    run completes they are among the pending chunks that the batch loop has
    handed, all of them and in order, to the encoder and to
    [collection.add], from the collection as the run found it to the
    collection as the run leaves it. *)
Theorem failed_extraction_is_caught (f : str) (rest : list str) (acc : pending)
    (s : state collection) (text : str) (e : exn) :
  read_document w (path_join folder f) = (text, Some e) ->
  is_Exception e = true ->
  (exists s' acc',
     process_book w folder acc f s = (s', Ok acc')
     /\ In (lit "Error reading " ++ path_join folder f ++ lit ": " ++ exn_str e)
           (stdout s')
     /\ db s' = db s
     /\ summary_file s' = summary_file s
     /\ (strip text = [] -> acc' = acc)
     /\ (strip text <> [] ->
         exists chunks,
           chunk_text (clean_text (uni_alnum w) text) default_chunk_size default_overlap
           = Ok chunks
           /\ all_chunks acc' = all_chunks acc ++ chunks)
     /\ for_each (process_book w folder) (f :: rest) acc s
        = for_each (process_book w folder) rest acc' s')
  /\ (forall names pre post s0 s1 chunks,
        listdir w folder = Ok names ->
        filter (endswith (lit ".pdf")) names = pre ++ f :: post ->
        strip text <> [] ->
        chunk_text (clean_text (uni_alnum w) text) default_chunk_size default_overlap
        = Ok chunks ->
        process_all_books w folder s0 = (s1, Ok tt) ->
        exists all idxs before after,
          all_chunks all = before ++ chunks ++ after
          /\ range 0 (len (all_chunks all)) batch_size = Ok idxs
          /\ List.concat (map (fun i => slice (all_chunks all) i (i + batch_size)) idxs)
             = all_chunks all
          /\ stored_in_batches w all idxs (db s0) (db s1)).
Proof.
  intros Hread He. split.
  - exact (failed_extraction_step embedding collection w folder f rest acc s text e
             Hread He).
  - intros names pre post s0 s1 chunks Hn Hf Hblank Hc Hrun.
    destruct (completed_run_steps names s0 s1 Hn
                ltac:(rewrite Hf; intros E; destruct pre; discriminate E) Hrun)
      as (t0 & t1 & all & idxs & t2 & t3 & D0 & Hloop & Hr & D2 & Hstore & D3).
    rewrite Hf in Hloop.
    rewrite for_each_app in Hloop. unfold bind at 1 in Hloop.
    destruct (for_each (process_book w folder) pre no_pending t0)
      as [tp [accp|ep]] eqn:Ep; [|discriminate].
    destruct (failed_extraction_step embedding collection w folder f post accp tp text e
                Hread He)
      as (t' & acc' & Hp & _ & _ & _ & _ & Hkept & Hnext).
    rewrite Hnext in Hloop.
    destruct (Hkept Hblank) as (chunks' & Hc' & Ha').
    rewrite Hc in Hc'. injection Hc' as <-.
    destruct (for_each_process_book_grows post acc' t' t1 all Hloop) as (_ & more & Hm).
    destruct (for_each_process_book_grows pre no_pending t0 tp accp Ep) as (Dp & _).
    destruct (for_each_process_book_grows (f :: post) accp tp t1 all
                ltac:(rewrite Hnext; exact Hloop)) as (Dl & _).
    exists all, idxs, (all_chunks accp), more.
    split; [rewrite Hm, Ha', <- app_assoc; reflexivity|].
    split; [exact Hr|]. split.
    + destruct (batches_partition (all_chunks all)) as (i1 & R1 & C1 & _).
      rewrite Hr in R1. injection R1 as <-. exact C1.
    + assert (Hs := store_batches_stored all idxs t2 t3 tt Hstore).
      rewrite D3. replace (db s0) with (db t2) by congruence. exact Hs.
Qed.

End StoreFacts.

Lemma batches_reach_the_collection_witness :
  exists s',
    for_each (store_batch (sample_world []) sample_pending) [0%Z; 100%Z] tt (initial [])
    = (s', Ok tt)
    /\ List.length (db s') = 150%nat
    /\ stored_in_batches (sample_world []) sample_pending [0%Z; 100%Z] [] (db s').
Proof.
  destruct (for_each (store_batch (sample_world []) sample_pending) [0%Z; 100%Z] tt
              (initial [])) as [s' [[]|e]] eqn:E; [|vm_compute in E; discriminate E].
  exists s'. split; [reflexivity|]. split.
  - vm_compute in E. injection E as <-. reflexivity.
  - exact (proj1 (batches_reach_the_collection unit sample_store (sample_world [])
                    sample_pending [0%Z; 100%Z] (initial []) s' tt
                    eq_refl E eq_refl eq_refl)).
Defined.

Lemma failed_extraction_is_caught_witness :
  (exists s' acc',
     process_book (sample_world [lit "bad.pdf"]) (lit "books") no_pending (lit "bad.pdf")
                  (initial [])
     = (s', Ok acc')
     /\ In (lit "Error reading books/bad.pdf: corrupt page") (stdout s')
     /\ all_chunks acc' <> [])
  /\ (exists s1 all idxs before after chunk,
        process_all_books (sample_world [lit "bad.pdf"]) (lit "books") (initial [])
        = (s1, Ok tt)
        /\ all_chunks all = before ++ [chunk] ++ after
        /\ stored_in_batches (sample_world [lit "bad.pdf"]) all idxs [] (db s1)
        /\ db s1 = [(lit "bad_chunk_0", chunk)]).
Proof.
  destruct (failed_extraction_is_caught unit sample_store
              (sample_world [lit "bad.pdf"]) (lit "books") (lit "bad.pdf") []
              no_pending (initial []) (text_of_words 30 ++ newline)
              (LibraryError (lit "corrupt page")) eq_refl eq_refl)
    as ((s' & acc' & Hp & Hlog & _ & _ & _ & Hkept & _) & Hrun).
  split.
  - exists s', acc'. split; [exact Hp|]. split; [exact Hlog|].
    destruct Hkept as (chunks & Ec & Ea); [vm_compute; discriminate|].
    rewrite Ea. vm_compute in Ec. injection Ec as <-. discriminate.
  - destruct (process_all_books (sample_world [lit "bad.pdf"]) (lit "books") (initial []))
      as [s1 r] eqn:E.
    assert (Er : r = Ok tt) by (vm_compute in E; injection E as _ <-; reflexivity).
    subst r.
    destruct (chunk_text (clean_text (uni_alnum (sample_world [lit "bad.pdf"]))
                                     (text_of_words 30 ++ newline))
                         default_chunk_size default_overlap) as [chunks|e'] eqn:Ec;
      [|vm_compute in Ec; discriminate Ec].
    destruct (Hrun [lit "bad.pdf"] [] [] (initial []) s1 chunks eq_refl eq_refl
                ltac:(vm_compute; discriminate) eq_refl E)
      as (all & idxs & before & after & Ha & _ & _ & Hs).
    assert (Hdb : exists chunk, chunks = [chunk] /\ db s1 = [(lit "bad_chunk_0", chunk)]).
    { vm_compute in Ec. injection Ec as <-.
      vm_compute in E. injection E as <-. eexists. split; reflexivity. }
    destruct Hdb as (chunk & -> & Hdb).
    exists s1, all, idxs, before, after, chunk.
    split; [reflexivity|]. split; [exact Ha|]. split; [exact Hs|exact Hdb].
Defined.

(** ** The query script *)

Import QueryDatabase.

Section QueryFacts.

Variables float metadata embedding collection : Type.
Variable one_minus : float -> float.
Variable w : World float metadata embedding collection.

(** C6: [query_database] writes nothing on standard output.  When a
    statement of its [try] block raises an exception, it returns the empty
    list, raising nothing itself, and writes the error on standard error;
    this is what happens when the client, the lookup of the collection (a
    collection that does not exist), the loading of the model, the encoder
    or the query of the store fails.  When the store answers with no
    document, as for an empty collection, it returns the empty list too. *)
Theorem query_database_failure_gives_empty_list (query_text : str) (top_k : Z)
    (s : state float metadata) :
  stdout (fst (query_database one_minus w query_text top_k s)) = stdout s
  /\ (forall e,
        query_body one_minus w query_text top_k = Raise e ->
        is_Exception e = true ->
        query_database one_minus w query_text top_k s
        = ({| stdout := stdout s;
              stderr := stderr s ++ [lit "Error querying database: " ++ exn_str e] |},
           Ok []))
  /\ (forall e,
        persistent_client w = Raise e ->
        query_body one_minus w query_text top_k = Raise e)
  /\ (forall e,
        persistent_client w = Ok tt -> get_collection w = Raise e ->
        query_body one_minus w query_text top_k = Raise e)
  /\ (forall c e,
        persistent_client w = Ok tt -> get_collection w = Ok c ->
        sentence_transformer w = Raise e ->
        query_body one_minus w query_text top_k = Raise e)
  /\ (forall c e,
        persistent_client w = Ok tt -> get_collection w = Ok c ->
        sentence_transformer w = Ok tt -> encode w query_text = Raise e ->
        query_body one_minus w query_text top_k = Raise e)
  /\ (forall c v e,
        persistent_client w = Ok tt -> get_collection w = Ok c ->
        sentence_transformer w = Ok tt -> encode w query_text = Ok v ->
        query w c v top_k = Raise e ->
        query_body one_minus w query_text top_k = Raise e)
  /\ (forall c v results,
        persistent_client w = Ok tt -> get_collection w = Ok c ->
        sentence_transformer w = Ok tt -> encode w query_text = Ok v ->
        query w c v top_k = Ok results ->
        has_documents results = false ->
        query_database one_minus w query_text top_k s = (s, Ok [])).
Proof.
  unfold query_database, try_except, lift.
  repeat split.
  - destruct (query_body one_minus w query_text top_k) as [r|e]; [reflexivity|].
    destruct (is_Exception e); reflexivity.
  - intros e -> ->. reflexivity.
  - intros e Hc. unfold query_body. rewrite Hc. reflexivity.
  - intros e Hc Hg. unfold query_body. rewrite Hc, Hg. reflexivity.
  - intros c e Hc Hg Hm. unfold query_body. rewrite Hc, Hg, Hm. reflexivity.
  - intros c e Hc Hg Hm He. unfold query_body. rewrite Hc, Hg, Hm, He. reflexivity.
  - intros c v e Hc Hg Hm He Hq. unfold query_body.
    rewrite Hc, Hg, Hm, He. cbn [rbind]. rewrite Hq. reflexivity.
  - intros c v results Hc Hg Hm He Hq Hd. unfold query_body.
    rewrite Hc, Hg, Hm, He. cbn [rbind]. rewrite Hq. cbn [rbind].
    unfold format_results. rewrite Hd. destruct s; reflexivity.
Qed.

(** C7 fails when the second argument is not an integer: [int] raises
    outside every [try], so the process ends in a traceback on standard
    error and prints no JSON.  The run below is for the arguments
    [hello abc]. *)
Theorem main_crashes_on_non_integer_top_k :
  run one_minus w [lit "query_database.py"; lit "hello"; lit "abc"]
  = ({| stdout := [];
        stderr := [lit "Traceback (most recent call last): "
                   ++ lit "invalid literal for int() with base 10"] |},
     Crashed (ValueError (lit "invalid literal for int() with base 10"))).
Proof. reflexivity. Qed.

(** With a query and, when it is given, a [top_k] that [int] accepts, the
    JSON document of the results is all that standard output receives,
    provided the collaborators fail by exceptions only. *)
Lemma main_prints_json (prog query_text : str) (rest : list str) (top_k : Z) :
  (forall k e, query_body one_minus w query_text k = Raise e -> is_Exception e = true) ->
  match rest with
  | [] => top_k = 5%Z
  | a :: _ => int (uni_decimal w) (max_str_digits w) a = Ok top_k
  end ->
  exists results,
    stdout (fst (run one_minus w (prog :: query_text :: rest))) = [Json results]
    /\ snd (run one_minus w (prog :: query_text :: rest)) = Finished.
Proof.
  intros Hexn Hk.
  assert (Hq : exists s results,
             query_database one_minus w query_text top_k initial
             = (s, Ok results) /\ stdout s = []).
  { unfold query_database, try_except, lift.
    destruct (query_body one_minus w query_text top_k) as [r|e] eqn:E.
    - eexists _, _. split; reflexivity.
    - rewrite (Hexn _ _ E). eexists _, _. split; reflexivity. }
  destruct Hq as (s & results & Eq & Hout).
  exists results.
  assert (Hmain : main one_minus w (prog :: query_text :: rest) initial
                  = ({| stdout := [Json results]; stderr := stderr s |}, Ok tt)).
  { unfold main.
    assert (Hlen : (len (prog :: query_text :: rest) <? 2)%Z = false).
    { apply Z.ltb_ge. unfold len. simpl List.length. lia. }
    rewrite Hlen.
    unfold bind at 1. unfold lift at 1.
    change (getitem (prog :: query_text :: rest) 1) with (Ok query_text).
    unfold bind at 1.
    destruct rest as [|a rest'].
    - subst top_k. change (2 <? len [prog; query_text])%Z with false.
      unfold ret at 1. unfold bind at 1. rewrite Eq.
      unfold print. rewrite Hout. reflexivity.
    - assert (Hlen2 : (2 <? len (prog :: query_text :: a :: rest'))%Z = true).
      { apply Z.ltb_lt. unfold len. simpl List.length. lia. }
      rewrite Hlen2.
      unfold bind at 1. unfold lift at 1.
      change (getitem (prog :: query_text :: a :: rest') 2) with (Ok a).
      unfold lift at 1. rewrite Hk.
      unfold bind at 1. rewrite Eq.
      unfold print. rewrite Hout. reflexivity. }
  unfold run. rewrite Hmain. split; reflexivity.
Qed.

End QueryFacts.

Lemma query_database_failure_gives_empty_list_witness :
  query_database sample_one_minus (sample_query_world false []) (lit "peace") 5
                 initial
  = ({| stdout := @nil (output Q unit);
        stderr := [lit "Error querying database: Collection spiritual_books does not exist."] |},
     Ok [])
  /\ query_database sample_one_minus (sample_query_world true []) (lit "peace") 5
                    initial
     = (initial, Ok []).
Proof.
  destruct (query_database_failure_gives_empty_list Q unit unit unit sample_one_minus
              (sample_query_world false []) (lit "peace") 5 initial)
    as (_ & Hraise & _ & Hmissing & _).
  destruct (query_database_failure_gives_empty_list Q unit unit unit sample_one_minus
              (sample_query_world true []) (lit "peace") 5 initial)
    as (_ & _ & _ & _ & _ & _ & _ & Hempty).
  split.
  - apply (Hraise (ValueError (lit "Collection spiritual_books does not exist."))).
    + apply Hmissing; reflexivity.
    + reflexivity.
  - apply (Hempty tt tt {| documents := Some [[]];
                           metadatas := Some [[]];
                           distances := Some [[]] |}); reflexivity.
Defined.

(** Runs of the script on the sample store. *)
Example run_with_two_results :
  run sample_one_minus (sample_query_world true [lit "one"; lit "two"; lit "three"])
      [lit "query_database.py"; lit "peace"; lit "2"]
  = ({| stdout := [Json [{| content := lit "one"; hit_metadata := tt;
                            score := sample_one_minus (1 # 4) |};
                         {| content := lit "two"; hit_metadata := tt;
                            score := sample_one_minus (1 # 4) |}]];
        stderr := [] |},
     Finished).
Proof. reflexivity. Qed.

Example run_with_zero_top_k :
  run sample_one_minus (sample_query_world true [lit "one"])
      [lit "query_database.py"; lit "peace"; lit "0"]
  = ({| stdout := [Json []];
        stderr := [lit "Error querying database: "
                   ++ lit "Number of requested results cannot be negative, or zero."] |},
     Finished).
Proof. reflexivity. Qed.

Example run_without_query :
  run sample_one_minus (sample_query_world true [lit "one"]) [lit "query_database.py"]
  = ({| stdout := [Line (lit "Usage: python query_database.py <query> [top_k]")];
        stderr := [] |},
     Exited 1).
Proof. reflexivity. Qed.

(** ** More on the query script *)


Lemma skipn_cons_nth_error {A} (l : list A) (a : nat) :
  (a < List.length l)%nat ->
  exists x, nth_error l a = Some x /\ skipn a l = x :: skipn (S a) l.
Proof.
  revert a. induction l as [|y r IH]; intros a Ha; [simpl in Ha; lia|].
  destruct a as [|a'].
  - exists y. split; reflexivity.
  - destruct (IH a' ltac:(simpl in Ha; lia)) as (x & Hn & Hs).
    exists x. split; [exact Hn|]. exact Hs.
Qed.

Lemma getitem_nth_error {A} (l : list A) (a : nat) (x : A) :
  nth_error l a = Some x -> getitem l (Z.of_nat a) = Ok x.
Proof.
  intros H. unfold getitem.
  destruct (Z.ltb_spec (Z.of_nat a) 0); [lia|].
  destruct (Z.ltb_spec (Z.of_nat a) 0); [lia|].
  rewrite Nat2Z.id, H. reflexivity.
Qed.

Section MoreQueryFacts.

Variables float metadata embedding collection : Type.
Variable one_minus : float -> float.
Variable w : World float metadata embedding collection.

Lemma format_loop_hits (docs : list str) (metas : list metadata) (dists : list float)
    (d' : list (list str)) (m' : list (list metadata)) (x' : list (list float)) :
  List.length metas = List.length docs ->
  List.length dists = List.length docs ->
  forall n a acc,
    (a + n <= List.length docs)%nat ->
    format_loop one_minus
      {| documents := Some (docs :: d');
         metadatas := Some (metas :: m');
         distances := Some (dists :: x') |}
      (map Z.of_nat (seq a n)) acc
    = Ok (acc ++ hits_of one_minus (firstn n (skipn a docs)) (firstn n (skipn a metas))
                         (firstn n (skipn a dists))).
Proof.
  intros Hm Hd. induction n as [|n IH]; intros a acc Ha.
  - simpl. rewrite app_nil_r. reflexivity.
  - cbn [seq map format_loop].
    destruct (skipn_cons_nth_error docs a ltac:(lia)) as (c & Hc & Sc).
    destruct (skipn_cons_nth_error metas a ltac:(lia)) as (m & Hmn & Sm).
    destruct (skipn_cons_nth_error dists a ltac:(lia)) as (d & Hdn & Sd).
    unfold format_result, first_of. cbn [documents metadatas distances].
    change (getitem (docs :: d') 0) with (Ok docs).
    change (getitem (metas :: m') 0) with (Ok metas).
    change (getitem (dists :: x') 0) with (Ok dists).
    cbn [rbind].
    rewrite (getitem_nth_error docs a c Hc), (getitem_nth_error metas a m Hmn),
      (getitem_nth_error dists a d Hdn).
    cbn [rbind].
    rewrite IH by lia. rewrite Sc, Sm, Sd. cbn [firstn].
    unfold hits_of. cbn [combine map fst snd]. rewrite <- app_assoc. reflexivity.
Qed.

(** X19: when the store answers with as many metadata and distances as
    documents, [query_database] returns one result per document, in the
    order of the store, with the content, the metadata and the score
    1 - distance of that document, and writes on neither stream; there
    are as many results as documents returned, not top_k. *)
Theorem query_database_formats_answer (query_text : str) (top_k : Z)
    (s : state float metadata) (c : collection) (v : embedding)
    (docs : list str) (metas : list metadata) (dists : list float)
    (d' : list (list str)) (m' : list (list metadata)) (x' : list (list float)) :
  persistent_client w = Ok tt -> get_collection w = Ok c ->
  sentence_transformer w = Ok tt -> encode w query_text = Ok v ->
  query w c v top_k = Ok {| documents := Some (docs :: d');
                            metadatas := Some (metas :: m');
                            distances := Some (dists :: x') |} ->
  List.length metas = List.length docs ->
  List.length dists = List.length docs ->
  query_database one_minus w query_text top_k s
  = (s, Ok (hits_of one_minus docs metas dists))
  /\ List.length (hits_of one_minus docs metas dists) = List.length docs.
Proof.
  intros Hc Hg Hm He Hq Hlm Hld. split.
  - unfold query_database, try_except, lift, query_body.
    rewrite Hc, Hg, Hm, He. cbn [rbind]. rewrite Hq. cbn [rbind].
    unfold format_results, has_documents. cbn [documents].
    destruct docs as [|d0 dr] eqn:Ed.
    + destruct metas; [|discriminate Hlm]. destruct dists; [|discriminate Hld].
      reflexivity.
    + rewrite <- Ed in *. unfold first_of.
      change (getitem (docs :: d') 0) with (Ok docs). cbn [rbind].
      rewrite range_positive_step by lia. cbn [rbind].
      rewrite (map_ext _ Z.of_nat) by (intros k; lia).
      replace (Z.to_nat (ceil_div (len docs) 1)) with (List.length docs)
        by (unfold ceil_div, len; rewrite Z.div_1_r; lia).
      rewrite (format_loop_hits docs metas dists d' m' x' Hlm Hld) by lia.
      cbn [skipn app].
      rewrite firstn_all, <- Hlm, firstn_all, Hlm, <- Hld, firstn_all.
      reflexivity.
  - unfold hits_of. rewrite length_map, !length_combine. lia.
Qed.

(** X20: when the answer of the store has documents but no metadata (or no
    distances), the formatting fails on the first document and
    [query_database] returns the empty list with the TypeError on standard
    error: results are returned all together or not at all. *)
Theorem query_database_incomplete_answer (query_text : str) (top_k : Z)
    (s : state float metadata) (c : collection) (v : embedding)
    (results : query_result float metadata) :
  persistent_client w = Ok tt -> get_collection w = Ok c ->
  sentence_transformer w = Ok tt -> encode w query_text = Ok v ->
  query w c v top_k = Ok results ->
  has_documents results = true ->
  metadatas results = None
  \/ (exists m, metadatas results = Some m /\ m <> [] /\ hd [] m <> []
                /\ distances results = None) ->
  query_database one_minus w query_text top_k s
  = ({| stdout := stdout s;
        stderr := stderr s
                  ++ [lit "Error querying database: "
                      ++ lit "'NoneType' object is not subscriptable"] |},
     Ok []).
Proof.
  intros Hc Hg Hm He Hq Hdocs Hnone.
  unfold query_database, try_except, lift, query_body.
  rewrite Hc, Hg, Hm, He. cbn [rbind]. rewrite Hq. cbn [rbind].
  unfold format_results. rewrite Hdocs.
  unfold has_documents in Hdocs.
  destruct results as [[[|[|d0 dr] d']|] ms ds]; cbn [documents] in Hdocs;
    try discriminate Hdocs.
  cbn [documents metadatas distances] in *.
  unfold first_of at 1. change (getitem ((d0 :: dr) :: d') 0) with (Ok (d0 :: dr)).
  cbn [rbind].
  rewrite range_positive_step by lia. cbn [rbind].
  assert (Hn : exists n, Z.to_nat (ceil_div (len (d0 :: dr)) 1) = S n).
  { exists (List.length dr). unfold ceil_div, len. rewrite Z.div_1_r.
    simpl List.length. lia. }
  destruct Hn as [n ->]. cbn [seq map format_loop].
  unfold format_result, first_of. cbn [documents metadatas distances].
  change (getitem ((d0 :: dr) :: d') 0) with (Ok (d0 :: dr)). cbn [rbind].
  change (getitem (d0 :: dr) (Z.of_nat 0 * 1)) with (Ok d0). cbn [rbind].
  destruct Hnone as [->|(m & -> & Hne & Hhd & ->)].
  - reflexivity.
  - destruct m as [|[|m0 mr] m']; cbn [hd] in Hhd; try congruence.
    reflexivity.
Qed.

(** X21: with a query and a [top_k] that [int] accepts (or none, which
    stands for 5), the script prints exactly one thing on standard output,
    the JSON document of the results of [query_database], finishes
    normally, and ignores any further argument, provided the collaborators
    fail by exceptions only. *)
Theorem run_prints_the_results (prog query_text : str) (rest : list str) (top_k : Z) :
  (forall k e, query_body one_minus w query_text k = Raise e -> is_Exception e = true) ->
  match rest with
  | [] => top_k = 5%Z
  | a :: _ => int (uni_decimal w) (max_str_digits w) a = Ok top_k
  end ->
  exists s results,
    query_database one_minus w query_text top_k initial = (s, Ok results)
    /\ run one_minus w (prog :: query_text :: rest)
       = ({| stdout := [Json results]; stderr := stderr s |}, Finished).
Proof.
  intros Hexn Hk.
  assert (Hq : exists s results,
             query_database one_minus w query_text top_k initial = (s, Ok results)
             /\ stdout s = []).
  { unfold query_database, try_except, lift.
    destruct (query_body one_minus w query_text top_k) as [r|e] eqn:E.
    - eexists _, _. split; reflexivity.
    - rewrite (Hexn _ _ E). eexists _, _. split; reflexivity. }
  destruct Hq as (s & results & Eq & Hout).
  exists s, results. split; [exact Eq|].
  unfold run, main.
  assert (Hlen : (len (prog :: query_text :: rest) <? 2)%Z = false).
  { apply Z.ltb_ge. unfold len. simpl List.length. lia. }
  rewrite Hlen.
  unfold bind at 1. unfold lift at 1.
  change (getitem (prog :: query_text :: rest) 1) with (Ok query_text).
  unfold bind at 1.
  destruct rest as [|a rest'].
  - subst top_k. change (2 <? len [prog; query_text])%Z with false.
    unfold ret at 1. unfold bind at 1. rewrite Eq.
    unfold print. rewrite Hout. reflexivity.
  - assert (Hlen2 : (2 <? len (prog :: query_text :: a :: rest'))%Z = true).
    { apply Z.ltb_lt. unfold len. simpl List.length. lia. }
    rewrite Hlen2.
    unfold bind at 1. unfold lift at 1.
    change (getitem (prog :: query_text :: a :: rest') 2) with (Ok a).
    unfold lift at 1. rewrite Hk.
    unfold bind at 1. rewrite Eq.
    unfold print. rewrite Hout. reflexivity.
Qed.

(** X22: without a query argument the script prints its usage line, on
    standard output, and exits with status 1; the store is not consulted
    and standard error stays empty. *)
Theorem run_without_query_prints_usage (argv : list str) :
  (len argv < 2)%Z ->
  run one_minus w argv
  = ({| stdout := [Line (lit "Usage: python query_database.py <query> [top_k]")];
        stderr := [] |},
     Exited 1).
Proof.
  intros H. unfold run, main.
  apply Z.ltb_lt in H. rewrite H. reflexivity.
Qed.

(** X23: leaving [top_k] out is the same as passing 5. *)
Theorem run_default_top_k (prog query_text : str) :
  run one_minus w [prog; query_text]
  = run one_minus w [prog; query_text; lit "5"].
Proof.
  unfold run, main.
  change (len [prog; query_text] <? 2)%Z with false.
  change (len [prog; query_text; lit "5"] <? 2)%Z with false.
  cbn iota.
  unfold bind at 1 4. unfold lift at 1 2.
  change (getitem [prog; query_text] 1) with (Ok query_text).
  change (getitem [prog; query_text; lit "5"] 1) with (Ok query_text).
  change (2 <? len [prog; query_text])%Z with false.
  change (2 <? len [prog; query_text; lit "5"])%Z with true.
  cbn iota.
  assert (E : int (uni_decimal w) (max_str_digits w) (lit "5") = Ok 5%Z).
  { unfold int. cbn -[Z.ltb].
    destruct (Z.ltb_spec 0 (max_str_digits w)); [|reflexivity].
    destruct (Z.ltb_spec (max_str_digits w) 1); [lia|reflexivity]. }
  unfold bind at 4. unfold lift at 1.
  change (getitem [prog; query_text; lit "5"] 2) with (Ok (lit "5")).
  unfold bind at 2. unfold ret at 1. unfold lift at 1. rewrite E.
  reflexivity.
Qed.

End MoreQueryFacts.

Lemma query_database_formats_answer_witness :
  query_database sample_one_minus
                 (sample_query_world true [lit "one"; lit "two"; lit "three"])
                 (lit "peace") 5 initial
  = (initial,
     Ok (hits_of sample_one_minus [lit "one"; lit "two"; lit "three"] [tt; tt; tt]
                 [(1 # 4)%Q; (1 # 4)%Q; (1 # 4)%Q]))
  /\ List.length (hits_of sample_one_minus [lit "one"; lit "two"; lit "three"]
                          [tt; tt; tt] [(1 # 4)%Q; (1 # 4)%Q; (1 # 4)%Q]) = 3%nat.
Proof.
  exact (query_database_formats_answer Q unit unit unit sample_one_minus
           (sample_query_world true [lit "one"; lit "two"; lit "three"])
           (lit "peace") 5 initial tt tt
           [lit "one"; lit "two"; lit "three"] [tt; tt; tt]
           [(1 # 4)%Q; (1 # 4)%Q; (1 # 4)%Q] [] [] []
           eq_refl eq_refl eq_refl eq_refl eq_refl eq_refl eq_refl).
Defined.

Lemma query_database_incomplete_answer_witness :
  query_database sample_one_minus incomplete_query_world (lit "peace") 5 initial
  = ({| stdout := [];
        stderr := [lit "Error querying database: "
                   ++ lit "'NoneType' object is not subscriptable"] |},
     Ok []).
Proof.
  exact (query_database_incomplete_answer Q unit unit unit sample_one_minus
           incomplete_query_world (lit "peace") 5 initial tt tt
           {| documents := Some [[lit "one"]];
              metadatas := None;
              distances := Some [[(1 # 4)%Q]] |}
           eq_refl eq_refl eq_refl eq_refl eq_refl eq_refl (or_introl eq_refl)).
Defined.

Lemma run_prints_the_results_witness :
  exists s : state Q unit,
    run sample_one_minus (sample_query_world false [])
        [lit "query_database.py"; lit "peace"; lit "3"; lit "ignored"]
    = ({| stdout := [Json []]; stderr := stderr s |}, Finished).
Proof.
  destruct (run_prints_the_results Q unit unit unit sample_one_minus
              (sample_query_world false []) (lit "query_database.py") (lit "peace")
              [lit "3"; lit "ignored"] 3)
    as (s & results & Eq & Er).
  - intros k e E. vm_compute in E. injection E as <-. reflexivity.
  - reflexivity.
  - exists s. rewrite Er.
    vm_compute in Eq. injection Eq as _ <-. reflexivity.
Defined.

Lemma run_without_query_prints_usage_witness :
  run sample_one_minus (sample_query_world true []) [lit "query_database.py"]
  = ({| stdout := [Line (lit "Usage: python query_database.py <query> [top_k]")];
        stderr := [] |},
     Exited 1).
Proof.
  apply (run_without_query_prints_usage Q unit unit unit sample_one_minus
           (sample_query_world true []) [lit "query_database.py"]).
  vm_compute. reflexivity.
Defined.
